(** * SDGFT numerical engine: a shallow embedding and its checked properties

    The C sources (gtt_geometry.c, fractal_rg.c, gtt_background.c,
    gtt_perturbations.c) compute with [double].

    - Module [IEEE]: a [double] is a binary64 value ([PrimFloat.float]);
      [+ - * /], [sqrt], [fabs] and the comparisons are the IEEE-754
      operations, each C expression being evaluated in its C parse order,
      with no contraction and no excess precision.  The functions of
      <math.h> that are not IEEE basic operations ([exp], [log], [log10],
      [sin], [pow]) are an interface, [Libm], whose laws are the special
      values ISO C Annex F fixes.  Failure codes, NaN, infinities,
      rounding, overflow and underflow are visible in this reading, and
      every statement about gtt_geometry.c, fractal_rg.c and
      gtt_background.c is made in it.

    - Module [Exact]: the spectra of gtt_perturbations.c with a [double]
      read as a real number and <math.h> as the mathematical function it
      names.  Two statements are made in this reading: the scalar
      spectrum at the pivot, where the library functions are applied to
      [1] and [0] only, and the entries the loop of
      [gtt_cmb_temperature_spectrum] writes, which is a matter of
      indices. *)

From Stdlib Require Import ZArith List Bool Lia.
From Stdlib Require Import Reals Lra.
From Stdlib Require Import Floats.
Import ListNotations.

Set Warnings "-inexact-float".

(* ================================================================== *)
(** * Part I: the embedding                                            *)
(* ================================================================== *)

(** ** Control structures shared by the translated functions *)

(** [for (int i = lo; i < hi; i++) s = body(i, s);] with a body that does
    not assign [i]: exactly [hi - lo] iterations (none when [hi <= lo]). *)
Fixpoint for_range {S : Type} (n : nat) (i : Z) (body : Z -> S -> S) (s : S) : S :=
  match n with
  | O => s
  | Datatypes.S n' => for_range n' (i + 1)%Z body (body i s)
  end.

Definition for_loop {S : Type} (lo hi : Z) (body : Z -> S -> S) (s : S) : S :=
  for_range (Z.to_nat (hi - lo)) lo body s.

(** The same loop when the body may execute [return r;]. *)
Inductive ctl (S R : Type) : Type :=
| Continue (s : S)
| Return (r : R).
Arguments Continue {S R} s.
Arguments Return {S R} r.

Fixpoint for_range_ret {S R : Type} (n : nat) (i : Z)
         (body : Z -> S -> ctl S R) (s : S) : ctl S R :=
  match n with
  | O => Continue s
  | Datatypes.S n' =>
      match body i s with
      | Continue s' => for_range_ret n' (i + 1)%Z body s'
      | Return r => Return r
      end
  end.

Definition for_loop_ret {S R : Type} (lo hi : Z)
           (body : Z -> S -> ctl S R) (s : S) : ctl S R :=
  for_range_ret (Z.to_nat (hi - lo)) lo body s.

(** The indices [lo, lo+1, ..., lo+n-1] a loop visits, in order. *)
Definition indices (lo : Z) (n : nat) : list Z :=
  map (fun k => (lo + Z.of_nat k)%Z) (seq 0 n).

(** A C array written at one index.  Writing outside the caller's buffer
    is undefined in C; the model leaves the buffer as it is. *)
Fixpoint upd {A : Type} (l : list A) (i : nat) (v : A) : list A :=
  match l, i with
  | [], _ => []
  | _ :: t, O => v :: t
  | x :: t, Datatypes.S i' => x :: upd t i' v
  end.

(* ------------------------------------------------------------------ *)
(** ** The binary64 reading                                            *)
(* ------------------------------------------------------------------ *)

Module IEEE.

Local Open Scope float_scope.

Definition sqrt : float -> float := PrimFloat.sqrt.
Definition fabs : float -> float := PrimFloat.abs.

(** Conversion of a C [int] to [double] (exact for every 32-bit value). *)
Definition of_int (i : Z) : float :=
  if (i <? 0)%Z then - of_uint63 (Uint63.of_Z (- i)) else of_uint63 (Uint63.of_Z i).

(** <math.h>.  The fields are the library functions the sources call; the
    laws are values ISO C (Annex F.10) prescribes exactly. *)
Class Libm : Type := {
  exp : float -> float;
  log : float -> float;
  log10 : float -> float;
  sin : float -> float;
  pow : float -> float -> float;
  exp_pos_zero : exp 0 = 1;
  exp_neg_zero : exp (-0) = 1;
  log_one : log 1 = 0;
  log10_infinity : log10 infinity = infinity;
  sin_pos_zero : sin 0 = 0;
  pow_one_base : forall y, pow 1 y = 1;
  pow_zero_two : pow 0 2 = 0
}.

(** [M_PI] of <math.h> (gtt_background.c repeats the same digits). *)
Definition M_PI : float := 3.14159265358979323846.

(** *** include/gtt_geometry.h *)

Definition GTT_THETA_MAX : float := 30.0.
Definition GTT_D_ASYMPTOTIC : float := 2.7916667.
Definition GTT_XI_G : float := 0.004.
Definition GTT_BETA_EMERGENZ : float := 0.1.
Definition GTT_ALPHA_ENTFALTUNG : float := 1.0.
Definition GTT_BETA_ISO : float := 0.028.
Definition M_PLANCK : float := 1.220910e19.

Record gtt_params : Type := mk_gtt_params {
  theta_max : float;
  D_asymptotic : float;
  xi_G : float;
  beta : float;
  alpha : float;
  chi : float;
  chi_P : float;
  beta_iso : float
}.

(** *** include/fractal_rg.h *)

(** [double v[3]]. *)
Definition array3 : Type := (float * float * float)%type.

Definition get3 (v : array3) (i : Z) : float :=
  let '(v0, v1, v2) := v in
  if (i =? 0)%Z then v0 else if (i =? 1)%Z then v1 else v2.

(** [for (int i = 0; i < 3; i++) out[i] = f(i);] *)
Definition tabulate3 (f : Z -> float) : array3 := (f 0%Z, f 1%Z, f 2%Z).

Record rg_state : Type := mk_rg_state {
  G : float;
  D : float;
  Lambda : float;
  g_gauge : array3;
  y_yukawa : array3
}.

(** [s.D = v;] and [s.G = v;] *)
Definition set_D (s : rg_state) (v : float) : rg_state :=
  {| G := G s; D := v; Lambda := Lambda s;
     g_gauge := g_gauge s; y_yukawa := y_yukawa s |}.

Definition set_G (s : rg_state) (v : float) : rg_state :=
  {| G := v; D := D s; Lambda := Lambda s;
     g_gauge := g_gauge s; y_yukawa := y_yukawa s |}.

(** *** gtt_background.c: types and status codes *)

Definition _SUCCESS_ : Z := 0.
Definition _FAILURE_ : Z := 1.

Record cosmology_params : Type := mk_cosmology_params {
  h : float;
  Omega_b : float;
  Omega_cdm : float;
  Omega_lambda : float;
  Omega_k : float;
  T_cmb : float;
  N_eff : float
}.

Section Program.

Context {libm : Libm}.

(** *** src/gtt_geometry.c *)

(** The field [chi] is not assigned by the initialiser. *)
Definition gtt_params_init (p : gtt_params) : gtt_params :=
  {| theta_max := GTT_THETA_MAX;
     D_asymptotic := GTT_D_ASYMPTOTIC;
     xi_G := GTT_XI_G;
     beta := GTT_BETA_EMERGENZ;
     alpha := GTT_ALPHA_ENTFALTUNG;
     chi := chi p;
     chi_P := log (M_PLANCK / 1.0);
     beta_iso := GTT_BETA_ISO |}.

Definition gtt_fractal_dimension (chi : float) (p : gtt_params) : float :=
  let D_inf := D_asymptotic p in
  D_inf - (D_inf - 2.0) * exp ((- chi) / chi_P p).

Definition gtt_G_of_chi (chi : float) (p : gtt_params) : float :=
  let D := gtt_fractal_dimension chi p in
  let G_Newton := 6.67430e-11 in
  let delta_G := (D - 3.0) * chi in
  let G_chi := G_Newton * exp delta_G in
  let quantum_corr := 1.0 + (2.0 / (3.0 * M_PI)) * G_chi
                          + (beta p / 24.0) * G_chi * G_chi in
  G_chi * quantum_corr.

Definition gtt_Lambda_of_chi (chi : float) (p : gtt_params) : float :=
  let Lambda_obs := 1.1056e-52 in
  let D := gtt_fractal_dimension chi p in
  let scale_factor := exp ((- (3.0 - D)) * chi / 2.0) in
  let vacuum_energy := xi_G p * exp ((- chi) / chi_P p) in
  Lambda_obs * scale_factor + vacuum_energy.

Definition gtt_cone_curvature (theta_max : float) (a : float) : float :=
  let theta_rad := theta_max * M_PI / 180.0 in
  let deficit_angle := 2.0 * M_PI * (1.0 - sin theta_rad) in
  let K_cone := deficit_angle / (a * a) in
  6.0 * K_cone.

Definition gtt_Q_term (a : float) (D : float) (p : gtt_params) : float :=
  let R := 6.0 / (a * a) in
  let chiral_term := xi_G p * R * R in
  let cone_term := (beta p / (4.0 * M_PI)) *
                   pow (theta_max p * M_PI / 180.0) 2 *
                   gtt_cone_curvature (theta_max p) a in
  let unfold_term := alpha p * (3.0 - D) / (a * a) in
  chiral_term + cone_term + unfold_term.

Definition gtt_spectral_index (k : float) (n_s0 : float) (p : gtt_params) : float :=
  let chi_k := log (k / 0.05) in
  let D_k := gtt_fractal_dimension chi_k p in
  n_s0 - 0.014 * (D_k - D_asymptotic p).


(** *** src/fractal_rg.c *)

Definition beta_g3_SM (g3 : float) : float :=
  (- 7.0) * pow g3 3 / (16.0 * M_PI * M_PI).

Definition beta_g2_SM (g2 : float) : float :=
  (- 19.0) / 6.0 * pow g2 3 / (16.0 * M_PI * M_PI).

Definition beta_g1_SM (g1 : float) : float :=
  41.0 / 10.0 * pow g1 3 / (16.0 * M_PI * M_PI).

(** Every field of [*state] is assigned: the result is the state after. *)
Definition rg_init_planck (p : gtt_params) : rg_state :=
  {| G := 1.0;
     D := 2.0;
     Lambda := 0.0;
     g_gauge := (0.7, 0.65, 0.35);
     y_yukawa := (1.0, 0.02, 0.01) |}.

Definition rg_beta_G (state : rg_state) (p : gtt_params) : float :=
  let G := G state in
  let D := D state in
  let term1 := (D - 3.0) * G in
  let term2 := (2.0 / (3.0 * M_PI)) * G * G in
  let term3 := (beta p / 24.0) * G * G * G in
  term1 + term2 + term3.

Definition rg_beta_D (state : rg_state) (chi : float) (p : gtt_params) : float :=
  let D := D state in
  let term1 := (- pow (3.0 - D) 2) / (4.0 * M_PI) in
  let term2 := (1.0 / 24.0) * exp ((- chi) / chi_P p) in
  term1 + term2.

Definition rg_beta_Lambda (state : rg_state) (p : gtt_params) : float :=
  let D := D state in
  let G := G state in
  let vacuum_term := (- (3.0 - D)) * Lambda state in
  let graviton_loop := xi_G p * G * G / (16.0 * M_PI * M_PI) in
  vacuum_term + graviton_loop.

(** The out-parameter [beta_out[3]] is the result. *)
Definition rg_beta_gauge (state : rg_state) (p : gtt_params) : array3 :=
  let D := D state in
  tabulate3 (fun i =>
    let g_i := get3 (g_gauge state) i in
    let beta_SM :=
      if (i =? 0)%Z then beta_g3_SM g_i
      else if (i =? 1)%Z then beta_g2_SM g_i
      else beta_g1_SM g_i in
    let gtt_term1 := (D - 3.0) * g_i in
    let gtt_term2 := (beta p / (8.0 * M_PI * M_PI)) * pow g_i 3 in
    beta_SM + gtt_term1 + gtt_term2).

(** The slopes [k1 .. k4] of one Runge-Kutta step.  In C they are
    [rg_state] locals of which only [G], [D], [Lambda] and [g_gauge] are
    ever assigned or read. *)
Record rg_slope : Type := mk_rg_slope {
  kG : float;
  kD : float;
  kLambda : float;
  kg_gauge : array3
}.

Definition rg_slope_at (s : rg_state) (chi : float) (p : gtt_params) : rg_slope :=
  {| kG := rg_beta_G s p;
     kD := rg_beta_D s chi p;
     kLambda := rg_beta_Lambda s p;
     kg_gauge := rg_beta_gauge s p |}.

(** [temp = *state; temp.X += c * k.X;] for [X] in [G], [D], [Lambda],
    [g_gauge[0..2]]: the copy carries [y_yukawa] along. *)
Definition rk4_temp (state : rg_state) (c : float) (k : rg_slope) : rg_state :=
  {| G := G state + c * kG k;
     D := D state + c * kD k;
     Lambda := Lambda state + c * kLambda k;
     g_gauge := tabulate3 (fun i => get3 (g_gauge state) i + c * get3 (kg_gauge k) i);
     y_yukawa := y_yukawa state |}.

(** [static void rk4_step(rg_state* state, ...)]: the state after the call. *)
Definition rk4_step (state : rg_state) (chi : float) (h : float) (p : gtt_params)
  : rg_state :=
  let k1 := rg_slope_at state chi p in
  let temp := rk4_temp state (0.5 * h) k1 in
  let k2 := rg_slope_at temp (chi + 0.5 * h) p in
  let temp := rk4_temp state (0.5 * h) k2 in
  let k3 := rg_slope_at temp (chi + 0.5 * h) p in
  let temp := rk4_temp state h k3 in
  let k4 := rg_slope_at temp (chi + h) p in
  {| G := G state + (h / 6.0) * (kG k1 + 2 * kG k2 + 2 * kG k3 + kG k4);
     D := D state + (h / 6.0) * (kD k1 + 2 * kD k2 + 2 * kD k3 + kD k4);
     Lambda := Lambda state
               + (h / 6.0) * (kLambda k1 + 2 * kLambda k2 + 2 * kLambda k3 + kLambda k4);
     g_gauge := tabulate3 (fun i =>
                  get3 (g_gauge state) i
                  + (h / 6.0) * (get3 (kg_gauge k1) i + 2 * get3 (kg_gauge k2) i
                                 + 2 * get3 (kg_gauge k3) i + get3 (kg_gauge k4) i));
     y_yukawa := y_yukawa state |}.

(** Returns the [int] result and [*state_out]. *)
Definition rg_integrate (state_in : rg_state) (chi_start chi_end : float)
           (p : gtt_params) : Z * rg_state :=
  let state_out := state_in in
  let n_steps := 1000%Z in
  let h := (chi_end - chi_start) / of_int n_steps in
  let state_out :=
    for_loop 0 n_steps
      (fun i state_out =>
         let chi := chi_start + of_int i * h in
         rk4_step state_out chi h p)
      state_out in
  (0%Z, state_out).

(** [chi_array[i]]; the caller provides at least [n_points] entries. *)
Definition chi_at (chi_array : list float) (i : Z) : float :=
  nth (Z.to_nat i) chi_array 0.

(** Returns the [int] result and the entries of [states_out] the call
    wrote, which are those of index [0], [1], ... in this order. *)
Definition rg_flow_full (chi_array : list float) (n_points : Z) (p : gtt_params)
  : Z * list rg_state :=
  let current_state := rg_init_planck p in
  let states_out := [current_state] in
  let '(current_state, states_out) :=
    for_loop 1 n_points
      (fun i '(current_state, states_out) =>
         let states_out_i :=
           snd (rg_integrate current_state
                             (chi_at chi_array (i - 1)) (chi_at chi_array i) p) in
         (states_out_i, states_out ++ [states_out_i]))
      (current_state, states_out) in
  (0%Z, states_out).

(** Returns [n_fixed] and the two output arrays after the call. *)
Definition rg_find_fixed_points (chi_fixed : list float) (state_fixed : list rg_state)
           (p : gtt_params) : Z * list float * list rg_state :=
  let n_fixed := 0%Z in
  let D_fixed := 3.0 - sqrt (M_PI / 6.0) in
  if fabs (D_fixed - D_asymptotic p) <? 0.5 then
    let chi_fixed := upd chi_fixed (Z.to_nat n_fixed) (chi_P p / 2.0) in
    let state_fixed :=
      match nth_error state_fixed (Z.to_nat n_fixed) with
      | Some s => upd state_fixed (Z.to_nat n_fixed) (set_G (set_D s D_fixed) 1.0)
      | None => state_fixed
      end in
    let n_fixed := (n_fixed + 1)%Z in
    (n_fixed, chi_fixed, state_fixed)
  else
    (n_fixed, chi_fixed, state_fixed).

(** *** src/gtt_background.c *)

Definition rho_total (a : float) (cosmo : cosmology_params) (gtt : gtt_params) : float :=
  let H0 := h cosmo * 100.0 * 1000.0 / 3.08567758e22 in
  let rho_crit := 3.0 * H0 * H0 / (8.0 * M_PI * 6.67430e-11) in
  let rho_m := (Omega_b cosmo + Omega_cdm cosmo) * rho_crit / (a * a * a) in
  let Omega_r := 4.18e-5 / (h cosmo * h cosmo) in
  let rho_r := Omega_r * rho_crit / (a * a * a * a) in
  let chi := log a in
  let D := gtt_fractal_dimension chi gtt in
  let fractal_corr := pow a (- (D + 1.0)) / pow a (- 4.0) in
  rho_m + rho_r * fractal_corr.

(** [int gtt_friedmann_equation(double a, double* H, void* params)], with
    [params] the pair [{cosmo, gtt}].  [None] is the return of [_FAILURE_],
    which leaves [*H] as it was; [Some v] is the return of [_SUCCESS_]
    after the assignment [*H = v]. *)
Definition gtt_friedmann_equation (a : float)
           (params : cosmology_params * gtt_params) : option float :=
  let cosmo := fst params in
  let gtt := snd params in
  if a <=? 0.0 then None else
  let chi := log a in
  let G_chi := gtt_G_of_chi chi gtt in
  let Lambda_chi := gtt_Lambda_of_chi chi gtt in
  let D := gtt_fractal_dimension chi gtt in
  let rho := rho_total a cosmo gtt in
  let K := 0.0 in
  let Q := gtt_Q_term a D gtt in
  let H_squared := (8.0 * M_PI * G_chi / 3.0) * rho
                   - K / (a * a)
                   + Lambda_chi / 3.0
                   + Q / 3.0 in
  if H_squared <? 0.0 then None else
  Some (sqrt H_squared).

(** The [int] a call returns. *)
Definition status (r : option float) : Z :=
  match r with
  | Some _ => _SUCCESS_
  | None => _FAILURE_
  end.

Definition gtt_hubble_at_z (z : float) (cosmo : cosmology_params) (gtt : gtt_params)
  : float :=
  let a := 1.0 / (1.0 + z) in
  match gtt_friedmann_equation a (cosmo, gtt) with
  | None => - 1.0
  | Some H => H
  end.

Definition gtt_distance_modulus (z : float) (cosmo : cosmology_params)
           (gtt : gtt_params) : float :=
  let c := 299792458.0 in
  let H0 := h cosmo * 100.0 * 1000.0 / 3.08567758e22 in
  let n_steps := 100%Z in
  let dz := z / of_int n_steps in
  let integral := 0.0 in
  match
    for_loop_ret 0 n_steps
      (fun i integral =>
         let z_i := (of_int i + 0.5) * dz in
         let H_z := gtt_hubble_at_z z_i cosmo gtt in
         if H_z <? 0 then Return (- 1.0)
         else Continue (integral + dz / H_z))
      integral
  with
  | Return r => r
  | Continue integral =>
      let d_L := c * (1.0 + z) * integral in
      let d_L_Mpc := d_L / 3.08567758e22 in
      let mu := 5.0 * log10 d_L_Mpc + 25.0 in
      mu
  end.

(** The C loop is [for (int i = 1; i <= n_steps; i++)]. *)
Definition gtt_age_of_universe (cosmo : cosmology_params) (gtt : gtt_params) : float :=
  let n_steps := 1000%Z in
  let da := 1.0 / of_int n_steps in
  let age := 0.0 in
  let age :=
    for_loop 1 (n_steps + 1)
      (fun i age =>
         let a := of_int i * da in
         match gtt_friedmann_equation a (cosmo, gtt) with
         | Some H => age + da / (a * H)
         | None => age
         end)
      age in
  let age_seconds := age in
  let age_years := age_seconds / (365.25 * 24.0 * 3600.0) in
  age_years.

End Program.

(** *** Further functions of gtt_geometry.c and gtt_background.c *)

Section ProgramContinued.

Context {libm : Libm}.

Definition gtt_conformal_factor (a : float) (D : float) : float :=
  let g_det := - pow a (2.0 * D) in
  0.5 * log (- g_det).

Definition gtt_acceleration_equation (a : float) (cosmo : cosmology_params)
           (gtt : gtt_params) : float :=
  let chi := log a in
  let G_chi := gtt_G_of_chi chi gtt in
  let Lambda_chi := gtt_Lambda_of_chi chi gtt in
  let D := gtt_fractal_dimension chi gtt in
  let rho := rho_total a cosmo gtt in
  let p := rho / 3.0 in
  let Q_accel := gtt_Q_term a D gtt * (D - 2.0) / 3.0 in
  let a_ddot_over_a := (- (4.0 * M_PI * G_chi / 3.0)) * (rho + 3.0 * p)
                       + Lambda_chi / 3.0
                       + Q_accel in
  a_ddot_over_a.

(** The two out-parameters [*H0_early] and [*H0_late], both assigned on
    every path, are the result. *)
Definition gtt_resolve_hubble_tension (cosmo : cosmology_params) (gtt : gtt_params)
  : float * float :=
  let z_cmb := 1100.0 in
  let H_cmb := gtt_hubble_at_z z_cmb cosmo gtt in
  let chi_cmb := log (1.0 / (1.0 + z_cmb)) in
  let G_cmb := gtt_G_of_chi chi_cmb gtt in
  let H0_early := H_cmb * sqrt (G_cmb / gtt_G_of_chi 0.0 gtt) in
  let z_late := 0.1 in
  let H_late := gtt_hubble_at_z z_late cosmo gtt in
  let chi_late := log (1.0 / (1.0 + z_late)) in
  let G_late := gtt_G_of_chi chi_late gtt in
  let H0_late := H_late * sqrt (G_late / gtt_G_of_chi 0.0 gtt) in
  let H0_early := H0_early * (3.08567758e22 / 1000.0) in
  let H0_late := H0_late * (3.08567758e22 / 1000.0) in
  (H0_early, H0_late).

(** *** src/fractal_rg.c, continued *)

(** The update that ends [rk4_step], as a function of the four slopes. *)
Definition rk4_combine (state : rg_state) (h : float) (k1 k2 k3 k4 : rg_slope)
  : rg_state :=
  {| G := G state + (h / 6.0) * (kG k1 + 2 * kG k2 + 2 * kG k3 + kG k4);
     D := D state + (h / 6.0) * (kD k1 + 2 * kD k2 + 2 * kD k3 + kD k4);
     Lambda := Lambda state
               + (h / 6.0) * (kLambda k1 + 2 * kLambda k2 + 2 * kLambda k3 + kLambda k4);
     g_gauge := tabulate3 (fun i =>
                  get3 (g_gauge state) i
                  + (h / 6.0) * (get3 (kg_gauge k1) i + 2 * get3 (kg_gauge k2) i
                                 + 2 * get3 (kg_gauge k3) i + get3 (kg_gauge k4) i));
     y_yukawa := y_yukawa state |}.

End ProgramContinued.

(** *** An executable <math.h>

    One inhabitant of [Libm], so that the translated functions can be run
    on concrete inputs.  The special values are those of Annex F; elsewhere
    the functions are evaluated by argument reduction and truncated series,
    accurate to a few units in the last place on the ranges used here. *)

Module Reference.

Definition ln2 : float := 0.6931471805599453.
Definition ln10 : float := 2.302585092994046.
Definition two_pi : float := 6.283185307179586.

(** Round to the nearest integer, for [|x| < 2^51]. *)
Definition nearest_int (x : float) : float :=
  (x + 6755399441055744.0) - 6755399441055744.0.

(** The integer an integer-valued float stands for. *)
Definition int_value (x : float) : Z :=
  match Prim2SF x with
  | S754_finite s m e =>
      let v := if (0 <=? e)%Z then (Z.pos m * 2 ^ e)%Z else (Z.pos m / 2 ^ (- e))%Z in
      if s then (- v)%Z else v
  | _ => 0%Z
  end.

Definition is_integer (y : float) : bool :=
  (4503599627370496.0 <=? abs y) || (nearest_int y =? y).

Definition is_odd (y : float) : bool :=
  is_integer y && negb (is_integer (y / 2)).

(** [1 + r/k (1 + r/(k+1) (1 + ...))] *)
Fixpoint exp_series (n : nat) (k : float) (r : float) : float :=
  match n with
  | O => 1
  | S n' => 1 + r / k * exp_series n' (k + 1) r
  end.

Definition exp (x : float) : float :=
  if is_nan x then nan
  else if 710 <? x then infinity
  else if x <? -746 then 0
  else
    let k := nearest_int (x / ln2) in
    let r := x - k * 0.693147180369123816490 - k * 1.90821492927058770002e-10 in
    Z.ldexp (exp_series 20 1 r) (int_value k).

(** [1/k + t2 (1/(k+2) + t2 (...))] *)
Fixpoint atanh_series (n : nat) (k : float) (t2 : float) : float :=
  match n with
  | O => 1 / k
  | S n' => 1 / k + t2 * atanh_series n' (k + 2) t2
  end.

Definition log (x : float) : float :=
  if is_nan x then nan
  else if x <? 0 then nan
  else if x =? 0 then neg_infinity
  else if x =? infinity then infinity
  else
    let '(m, e) := Z.frexp x in
    let '(m, e) := if m <? 0.7071067811865476 then (2 * m, (e - 1)%Z) else (m, e) in
    let t := (m - 1) / (m + 1) in
    2 * t * atanh_series 20 1 (t * t) + of_int e * ln2.

Definition log10 (x : float) : float := log x / ln10.

(** [1 - r2/(k(k+1)) (1 - r2/((k+2)(k+3)) (...))] *)
Fixpoint sin_series (n : nat) (k : float) (r2 : float) : float :=
  match n with
  | O => 1
  | S n' => 1 - r2 / (k * (k + 1)) * sin_series n' (k + 2) r2
  end.

Definition sin (x : float) : float :=
  if is_nan x || is_infinity x then nan
  else
    let r := x - nearest_int (x / two_pi) * two_pi in
    r * sin_series 16 2 (r * r).

Fixpoint pow_nat (n : nat) (x : float) : float :=
  match n with
  | O => 1
  | S n' => pow_nat n' x * x
  end.

Definition pow (x y : float) : float :=
  if x =? 1 then 1
  else if y =? 0 then 1
  else if is_nan x || is_nan y then nan
  else if is_integer y && (abs y <=? 16) then
    (if 0 <? y then pow_nat (Z.to_nat (int_value y)) x
     else 1 / pow_nat (Z.to_nat (- int_value y)) x)
  else if 0 <? x then exp (y * log x)
  else if x =? 0 then
    (if 0 <? y then (if is_odd y then x else 0)
     else (if is_odd y then 1 / x else infinity))
  else if is_integer y then
    (if is_odd y then - exp (y * log (- x)) else exp (y * log (- x)))
  else nan.

Definition libm : Libm :=
  {| IEEE.exp := exp;
     IEEE.log := log;
     IEEE.log10 := log10;
     IEEE.sin := sin;
     IEEE.pow := pow;
     exp_pos_zero := eq_refl;
     exp_neg_zero := eq_refl;
     log_one := eq_refl;
     log10_infinity := eq_refl;
     sin_pos_zero := eq_refl;
     pow_one_base := fun _ => eq_refl;
     pow_zero_two := eq_refl |}.

End Reference.

(** The parameter sets of the sources: [gtt_params_init] applied to a
    structure whose unassigned field [chi] holds [0], and the cosmology of
    [gtt_background_test]. *)
Definition default_gtt (L : Libm) : gtt_params :=
  @gtt_params_init L (mk_gtt_params 0 0 0 0 0 0 0 0).

Definition default_cosmo : cosmology_params :=
  {| h := 0.674;
     Omega_b := 0.0493;
     Omega_cdm := 0.264;
     Omega_lambda := 0.6847;
     Omega_k := 0.0;
     T_cmb := 2.7255;
     N_eff := 3.046 |}.

(** *** Notions the statements use *)

(** The values that are no number of finite size: NaN and the infinities. *)
Definition nonfinite (x : float) : Prop :=
  Prim2SF x = S754_nan \/ exists s, Prim2SF x = S754_infinity s.

(** [x] is NaN, a zero, or a number (finite or infinite) whose sign bit
    is [b]: with [b = false] no negative number, with [b = true] no
    positive one. *)
Definition sign_is (b : bool) (x : float) : Prop :=
  match Prim2SF x with
  | S754_nan => True
  | S754_zero _ => True
  | S754_infinity s => s = b
  | S754_finite s _ _ => s = b
  end.

(** *** Inputs the statements are evaluated at *)

(** A parameter set and a cosmology at which the expansion rate vanishes
    at [a = 1]: no matter (the critical density underflows to zero), no
    chiral and no cone term, and an unfolding term that cancels
    [Lambda_obs]. *)
Definition static_gtt : gtt_params :=
  {| theta_max := 0.0;
     D_asymptotic := 2.0;
     xi_G := 0.0;
     beta := 0.0;
     alpha := - 1.1056e-52;
     chi := 0.0;
     chi_P := 1.0;
     beta_iso := 0.0 |}.

Definition static_cosmo : cosmology_params :=
  {| h := 1e-150;
     Omega_b := 0.0;
     Omega_cdm := 0.0;
     Omega_lambda := 0.0;
     Omega_k := 0.0;
     T_cmb := 2.7255;
     N_eff := 3.046 |}.

(** The default parameter set with a large negative unfolding parameter,
    at which the right-hand side of the Friedmann equation is negative. *)
Definition contracting_gtt (L : Libm) : gtt_params :=
  let p := default_gtt L in
  {| theta_max := theta_max p;
     D_asymptotic := D_asymptotic p;
     xi_G := xi_G p;
     beta := beta p;
     alpha := - 1000.0;
     chi := chi p;
     chi_P := chi_P p;
     beta_iso := beta_iso p |}.

(** The default parameter set with an unfolding parameter so negative
    that the right-hand side of the Friedmann equation is negative at
    every scale factor from [0.0009] to [1]. *)
Definition collapsing_gtt (L : Libm) : gtt_params :=
  let p := default_gtt L in
  {| theta_max := theta_max p;
     D_asymptotic := D_asymptotic p;
     xi_G := xi_G p;
     beta := beta p;
     alpha := - 1e12;
     chi := chi p;
     chi_P := chi_P p;
     beta_iso := beta_iso p |}.

End IEEE.

(* ------------------------------------------------------------------ *)
(** ** gtt_perturbations.c over the real numbers                       *)
(* ------------------------------------------------------------------ *)

Module Exact.

Local Open Scope R_scope.

(** <math.h> *)
Definition log : R -> R := ln.
Definition M_PI : R := 3.14159265358979323846.

(** *** include/gtt_geometry.h *)

Definition GTT_THETA_MAX : R := 30.0.
Definition GTT_D_ASYMPTOTIC : R := 2.7916667.
Definition GTT_XI_G : R := 0.004.
Definition GTT_BETA_EMERGENZ : R := 0.1.
Definition GTT_ALPHA_ENTFALTUNG : R := 1.0.
Definition GTT_BETA_ISO : R := 0.028.
Definition M_PLANCK : R := 1.220910e19.

Record gtt_params : Type := mk_gtt_params {
  theta_max : R;
  D_asymptotic : R;
  xi_G : R;
  beta : R;
  alpha : R;
  chi : R;
  chi_P : R;
  beta_iso : R
}.

(** *** src/gtt_geometry.c *)

Definition gtt_params_init (p : gtt_params) : gtt_params :=
  {| theta_max := GTT_THETA_MAX;
     D_asymptotic := GTT_D_ASYMPTOTIC;
     xi_G := GTT_XI_G;
     beta := GTT_BETA_EMERGENZ;
     alpha := GTT_ALPHA_ENTFALTUNG;
     chi := chi p;
     chi_P := log (M_PLANCK / 1.0);
     beta_iso := GTT_BETA_ISO |}.

Definition gtt_fractal_dimension (chi : R) (p : gtt_params) : R :=
  let D_inf := D_asymptotic p in
  D_inf - (D_inf - 2.0) * exp ((- chi) / chi_P p).

Definition gtt_spectral_index (k : R) (n_s0 : R) (p : gtt_params) : R :=
  let chi_k := log (k / 0.05) in
  let D_k := gtt_fractal_dimension chi_k p in
  n_s0 - 0.014 * (D_k - D_asymptotic p).

Definition default_gtt : gtt_params :=
  gtt_params_init (mk_gtt_params 0 0 0 0 0 0 0 0).

(** *** <math.h>, continued *)

Definition M_E : R := 2.7182818284590452354.

(** [pow x y]: for an integer [y] the repeated product (or its inverse),
    for a positive [x] and any [y] the power [exp (y * log x)]; the two
    agree where both apply.  Where C's [pow] has a pole or a domain error
    (a zero base with a negative exponent, a negative base with an
    exponent that is no integer) the value given here carries no
    meaning, and no statement below relies on it. *)
Definition pow (x y : R) : R :=
  if Req_dec_T (IZR (Int_part y)) y then powerRZ x (Int_part y)
  else if Rlt_dec 0 x then Rpower x y
  else 0.

(** *** src/gtt_geometry.c, continued *)

Definition gtt_isocurvature_correction (k : R) (p : gtt_params) : R :=
  let k_pivot := 0.05 in
  let k_ratio := k / k_pivot in
  let iso_amplitude := beta_iso p * pow k_ratio (- 0.5) in
  let phase := 6.0 * log k_ratio in
  let oscillation := cos phase in
  iso_amplitude * (1.0 + 0.3 * oscillation).

Definition gtt_tensor_to_scalar_ratio (p : gtt_params) : R :=
  let theta_rad := theta_max p * M_PI / 180.0 in
  let suppression := pow (3.0 - D_asymptotic p) 2 in
  let r := 0.002 * suppression * sin theta_rad in
  r.

(** *** src/gtt_perturbations.c *)

(** The structure has a field [beta_iso], as [gtt_params] has: its
    projections live in a name space of their own. *)
Module Spectra.

Record primordial_spectra : Type := mk_primordial_spectra {
  A_s : R;
  n_s : R;
  r : R;
  n_t : R;
  k_pivot : R;
  beta_iso : R;
  alpha_s : R
}.

End Spectra.

Definition primordial_spectra : Type := Spectra.primordial_spectra.

(** Every field of [*ps] is assigned. *)
Definition gtt_primordial_init (gtt : gtt_params) : primordial_spectra :=
  let r := gtt_tensor_to_scalar_ratio gtt in
  {| Spectra.A_s := 2.1e-9;
     Spectra.n_s := 0.965;
     Spectra.r := r;
     Spectra.n_t := (- r) / 8.0;
     Spectra.k_pivot := 0.05;
     Spectra.beta_iso := beta_iso gtt;
     Spectra.alpha_s := - 0.0003 |}.

Definition gtt_primordial_scalar_spectrum (k : R) (ps : primordial_spectra)
           (gtt : gtt_params) : R :=
  let k_ratio := k / Spectra.k_pivot ps in
  let n_s_k := gtt_spectral_index k (Spectra.n_s ps) gtt in
  let P_s := Spectra.A_s ps * pow k_ratio (n_s_k - 1.0) in
  let iso_corr := gtt_isocurvature_correction k gtt in
  let P_s := P_s * (1.0 + Spectra.beta_iso ps * iso_corr) in
  let ln_k := log k_ratio in
  let P_s := P_s * exp (0.5 * Spectra.alpha_s ps * ln_k * ln_k) in
  P_s.

Definition gtt_transfer_function (k : R) (Omega_m : R) (Omega_b : R) (h : R)
           (gtt : gtt_params) : R :=
  let k_eq := 0.073 * Omega_m * h * h in
  let k_silk := 1.6 * pow (Omega_b * h * h) 0.52 *
                pow (Omega_m * h * h) 0.73 in
  let q := k / (13.41 * k_eq) in
  let C := 14.2 + 731.0 / (1.0 + 62.5 * q) in
  let L := log (2.0 * M_E + 1.8 * q) in
  let T_EH := L / (L + C * q * q) in
  let chi_k := log (k / 0.05) in
  let D := gtt_fractal_dimension chi_k gtt in
  let gtt_suppression := exp ((- (3.0 - D)) * pow (k / k_silk) 2) in
  T_EH * gtt_suppression.

(** The value the loop body leaves in [C_l_TT[l]]: it is assigned, then
    multiplied by the normalisation, then (for [l > 1000]) by the
    enhancement. *)
Definition cmb_entry (l : Z) (Omega_m : R) (Omega_b : R) (h : R)
           (ps : primordial_spectra) (gtt : gtt_params) : R :=
  let theta_s := 0.0104 in
  let k_s := 1.0 / theta_s in
  let k := IZR l * k_s / 14000.0 in
  let P_prim := gtt_primordial_scalar_spectrum k ps gtt in
  let T_cmb := gtt_transfer_function k Omega_m Omega_b h gtt in
  let k_peak := M_PI * (IZR l / 220.0) in
  let oscillation := 1.0 + 0.3 * cos k_peak in
  let damping := exp (- pow (IZR l / 1400.0) 2) in
  let C_l := P_prim * T_cmb * T_cmb * oscillation * damping in
  let C_l := C_l * (5000.0 / (IZR l * (IZR l + 1.0))) in
  if (1000 <? l)%Z then
    let chi_l := log (IZR l / 1000.0) in
    let D := gtt_fractal_dimension chi_l gtt in
    let enhancement := 1.0 + 0.05 * (3.0 - D) in
    C_l * enhancement
  else C_l.

(** Returns the array [C_l_TT] after the call.  The C loop is
    [for (int l = 2; l <= l_max; l++)]. *)
Definition gtt_cmb_temperature_spectrum (l_max : Z) (C_l_TT : list R)
           (Omega_m : R) (Omega_b : R) (h : R)
           (ps : primordial_spectra) (gtt : gtt_params) : list R :=
  for_loop 2 (l_max + 1)
    (fun l C_l_TT => upd C_l_TT (Z.to_nat l) (cmb_entry l Omega_m Omega_b h ps gtt))
    C_l_TT.

End Exact.

(* ================================================================== *)
(** * Part II: properties                                              *)
(* ================================================================== *)

(** ** Loops as folds over the indices they visit *)

Lemma indices_length (lo : Z) (n : nat) : length (indices lo n) = n.
Proof. unfold indices. now rewrite length_map, length_seq. Qed.

Lemma indices_succ (lo : Z) (n : nat) :
  indices lo (S n) = lo :: indices (lo + 1) n.
Proof.
  unfold indices. cbn [seq map]. f_equal.
  - lia.
  - rewrite <- seq_shift, map_map. apply map_ext. intros k. lia.
Qed.

Lemma In_indices (lo : Z) (n : nat) (i : Z) :
  In i (indices lo n) <-> (lo <= i < lo + Z.of_nat n)%Z.
Proof.
  unfold indices. rewrite in_map_iff. split.
  - intros (k & <- & Hk). apply in_seq in Hk. lia.
  - intros Hi. exists (Z.to_nat (i - lo)). split; [lia|]. apply in_seq. lia.
Qed.

Lemma for_range_fold {S : Type} (body : Z -> S -> S) (n : nat) :
  forall (i : Z) (s : S),
    for_range n i body s = fold_left (fun s j => body j s) (indices i n) s.
Proof.
  induction n as [|n IH]; intros i s.
  - reflexivity.
  - rewrite indices_succ. cbn [for_range fold_left]. apply IH.
Qed.

Lemma for_loop_fold {S : Type} (lo hi : Z) (body : Z -> S -> S) (s : S) :
  for_loop lo hi body s
  = fold_left (fun s j => body j s) (indices lo (Z.to_nat (hi - lo))) s.
Proof. apply for_range_fold. Qed.

(** An invariant of the loop state is kept by the whole loop. *)
Lemma for_range_invariant {S : Type} (P : S -> Prop) (body : Z -> S -> S) :
  (forall i s, P s -> P (body i s)) ->
  forall n i s, P s -> P (for_range n i body s).
Proof.
  intros Hstep n. induction n as [|n IH]; intros i s Hs; cbn [for_range]; auto.
Qed.

(** Two runs of a loop, with two bodies that keep a relation between
    their states, end in related states. *)
Lemma for_range_related2 {S : Type} (R : S -> S -> Prop) (body body' : Z -> S -> S) :
  (forall i s s', R s s' -> R (body i s) (body' i s')) ->
  forall n i s s', R s s' -> R (for_range n i body s) (for_range n i body' s').
Proof.
  intros Hstep n. induction n as [|n IH]; intros i s s' Hs; cbn [for_range]; auto.
Qed.

Lemma for_range_related {S : Type} (R : S -> S -> Prop) (body : Z -> S -> S) :
  (forall i s s', R s s' -> R (body i s) (body i s')) ->
  forall n i s s', R s s' -> R (for_range n i body s) (for_range n i body s').
Proof. apply for_range_related2. Qed.

(** Writing a C array at one index. *)
Lemma upd_length {A : Type} (l : list A) (i : nat) (v : A) :
  length (upd l i v) = length l.
Proof.
  revert i. induction l as [|x l IH]; intros [|i]; cbn [upd length]; auto.
Qed.

Lemma upd_nth {A : Type} (l : list A) (i j : nat) (v d : A) :
  nth j (upd l i v) d
  = if (Nat.eqb j i && Nat.ltb j (length l))%bool then v else nth j l d.
Proof.
  revert i j. induction l as [|x l IH]; intros i j.
  - destruct i, j; cbn [upd nth length]; rewrite ?andb_false_r; reflexivity.
  - destruct i as [|i], j as [|j]; cbn [upd nth length]; try reflexivity.
    rewrite IH. reflexivity.
Qed.

(** A loop that writes entry [l] at each index [l] it visits leaves the
    length as it is, and at each position either the value of the
    visit or the old content. *)
Lemma for_range_upd {A : Type} (f : Z -> A) (d : A) (n : nat) :
  forall (lo : Z) (l : list A),
    (0 <= lo)%Z ->
    let out := for_range n lo (fun i l => upd l (Z.to_nat i) (f i)) l in
    length out = length l
    /\ forall j : nat,
         nth j out d
         = if ((lo <=? Z.of_nat j)%Z && (Z.of_nat j <? lo + Z.of_nat n)%Z
               && Nat.ltb j (length l))%bool
           then f (Z.of_nat j) else nth j l d.
Proof.
  induction n as [|n IH]; intros lo l Hlo out; subst out; cbn [for_range].
  - split; [reflexivity|]. intros j.
    replace ((lo <=? Z.of_nat j)%Z && (Z.of_nat j <? lo + Z.of_nat 0)%Z)%bool
      with false; [reflexivity|].
    symmetry. apply andb_false_iff.
    destruct (Z.leb_spec lo (Z.of_nat j)); [right | left; reflexivity].
    apply Z.ltb_ge. lia.
  - destruct (IH (lo + 1)%Z (upd l (Z.to_nat lo) (f lo))) as [Hlen Hnth]; [lia|].
    rewrite upd_length in Hlen, Hnth.
    split; [exact Hlen|]. intros j. rewrite Hnth, upd_nth.
    destruct (Nat.ltb_spec j (length l)) as [Hj | Hj];
      [|rewrite !andb_false_r; reflexivity].
    rewrite !andb_true_r.
    destruct (Z.leb_spec (lo + 1) (Z.of_nat j)) as [H1 | H1];
      destruct (Z.ltb_spec (Z.of_nat j) (lo + 1 + Z.of_nat n)) as [H2 | H2];
      destruct (Z.leb_spec lo (Z.of_nat j)) as [H3 | H3];
      destruct (Z.ltb_spec (Z.of_nat j) (lo + Z.of_nat (S n))) as [H4 | H4];
      destruct (Nat.eqb_spec j (Z.to_nat lo)) as [H5 | H5];
      cbn [andb]; try reflexivity; try lia.
    subst j. now rewrite Z2Nat.id by lia.
Qed.

(** A loop whose body never returns runs to its end. *)
Lemma for_range_ret_all_continue {S R : Type} (body : Z -> S -> ctl S R)
      (step : Z -> S -> S) (n : nat) :
  forall (i : Z) (s : S),
    (forall j s', In j (indices i n) -> body j s' = Continue (step j s')) ->
    for_range_ret n i body s
    = Continue (fold_left (fun s j => step j s) (indices i n) s).
Proof.
  induction n as [|n IH]; intros i s Hb.
  - reflexivity.
  - rewrite indices_succ in Hb |- *. cbn [for_range_ret fold_left].
    rewrite Hb by (left; reflexivity).
    apply IH. intros j s' Hj. apply Hb. now right.
Qed.

(** A loop whose body returns the same [r] at some visited index, and
    returns nothing else before, returns [r]. *)
Lemma for_range_ret_some_return {S R : Type} (body : Z -> S -> ctl S R) (r : R)
      (n : nat) :
  forall (i : Z) (s : S),
    (forall j s', In j (indices i n) ->
                  body j s' = Return r \/ exists s'', body j s' = Continue s'') ->
    (exists j, In j (indices i n) /\ forall s', body j s' = Return r) ->
    for_range_ret n i body s = Return r.
Proof.
  induction n as [|n IH]; intros i s Hb (j & Hj & Hret).
  - destruct Hj.
  - rewrite indices_succ in Hb, Hj. cbn [for_range_ret].
    destruct Hj as [<- | Hj].
    + now rewrite Hret.
    + destruct (Hb i s (or_introl eq_refl)) as [-> | (s'' & ->)]; [reflexivity|].
      apply IH.
      * intros k s' Hk. apply Hb. now right.
      * now exists j.
Qed.

(* ------------------------------------------------------------------ *)
(** ** Properties in the binary64 reading                              *)
(* ------------------------------------------------------------------ *)

Module IEEEProps.

Import IEEE.
Local Open Scope float_scope.

(** *** Facts of binary64 arithmetic *)

Lemma nonfinite_is_finite (x : float) : nonfinite x -> is_finite x = false.
Proof.
  unfold is_finite, is_nan, is_infinity.
  rewrite !eqb_spec, abs_spec.
  intros [-> | (s & ->)]; [reflexivity | now destruct s].
Qed.

Lemma nonfinite_infinity : nonfinite infinity.
Proof. right. now exists false. Qed.

Lemma nonfinite_mul_l (x y : float) : nonfinite x -> nonfinite (x * y).
Proof.
  unfold nonfinite. rewrite mul_spec. unfold SF64mul.
  intros [-> | (s & ->)]; destruct (Prim2SF y) as [sy|sy| |sy my ey];
    cbn; eauto.
Qed.

Lemma nonfinite_mul_r (x y : float) : nonfinite y -> nonfinite (x * y).
Proof.
  unfold nonfinite. rewrite mul_spec. unfold SF64mul.
  intros [-> | (s & ->)]; destruct (Prim2SF x) as [sx|sx| |sx mx ex];
    cbn; eauto.
Qed.

Lemma nonfinite_add_l (x y : float) : nonfinite x -> nonfinite (x + y).
Proof.
  unfold nonfinite. rewrite add_spec. unfold SF64add.
  intros [-> | (s & ->)]; destruct (Prim2SF y) as [sy|sy| |sy my ey];
    cbn; eauto; destruct s, sy; eauto.
Qed.

Lemma nonfinite_div_l (x y : float) : nonfinite x -> nonfinite (x / y).
Proof.
  unfold nonfinite. rewrite div_spec. unfold SF64div.
  intros [-> | (s & ->)]; destruct (Prim2SF y) as [sy|sy| |sy my ey];
    cbn; eauto.
Qed.

(** A value above zero is not below zero. *)
Lemma ltb_zero_asym (x : float) : (0 <? x) = true -> (x <? 0) = false.
Proof.
  rewrite !ltb_spec. change (Prim2SF 0) with (S754_zero false).
  destruct (Prim2SF x) as [s|s| |s m e]; cbn; try destruct s;
    intros E; try discriminate E; reflexivity.
Qed.

(** A zero divided by a number other than zero is a zero. *)
Lemma neg_zero_div_is_zero (c : float) :
  is_nan c = false -> (c =? 0) = false ->
  (- 0) / c = 0 \/ (- 0) / c = - 0.
Proof.
  unfold is_nan. rewrite !eqb_spec. change (Prim2SF 0) with (S754_zero false).
  intros Hnan Hzero.
  assert (Hdiv : exists b, Prim2SF ((- 0) / c) = S754_zero b).
  { rewrite div_spec. change (Prim2SF (- 0)) with (S754_zero true).
    destruct (Prim2SF c) as [s|s| |s m e]; cbn in *;
      try discriminate; eauto. }
  destruct Hdiv as (b & Hb).
  rewrite <- (SF2Prim_Prim2SF ((- 0) / c)), Hb.
  destruct b; [right | left]; reflexivity.
Qed.

(** A fold over the concatenation of per-index contributions. *)
Lemma fold_left_flat_map {A B S : Type} (f : S -> B -> S) (g : A -> list B)
      (l : list A) :
  forall s : S,
    fold_left f (flat_map g l) s
    = fold_left (fun s a => fold_left f (g a) s) l s.
Proof.
  induction l as [|a l IH]; intros s; cbn [flat_map fold_left].
  - reflexivity.
  - rewrite fold_left_app. apply IH.
Qed.

Lemma fold_left_ext_in {A S : Type} (f g : S -> A -> S) (l : list A) :
  (forall s a, In a l -> f s a = g s a) ->
  forall s : S, fold_left f l s = fold_left g l s.
Proof.
  induction l as [|a l IH]; intros Hfg s; cbn [fold_left].
  - reflexivity.
  - rewrite Hfg by (left; reflexivity). apply IH.
    intros s' a' Ha'. apply Hfg. now right.
Qed.

Section ForEveryLibm.

Context {libm : Libm}.

(** *** gtt_friedmann_equation *)

(** C1.  For every scale factor [a] and every parameter set,
    [gtt_friedmann_equation] returns [_FAILURE_], writing no Hubble value,
    exactly when [a <= 0] or the right-hand side
    [H2 = (8 pi G(chi) / 3) rho - K / a^2 + Lambda(chi) / 3 + Q / 3]
    (with [chi = log a] and [K = 0]) is negative; in every other case it
    returns [_SUCCESS_] with the Hubble value [sqrt H2].  A failure carries
    no number at all: neither NaN nor zero stands in for it. *)
Theorem friedmann_fails_exactly_on_domain_errors :
  forall (a : float) (cosmo : cosmology_params) (gtt : gtt_params),
    let chi := log a in
    let K := 0.0 in
    let H2 := (8.0 * M_PI * gtt_G_of_chi chi gtt / 3.0) * rho_total a cosmo gtt
              - K / (a * a)
              + gtt_Lambda_of_chi chi gtt / 3.0
              + gtt_Q_term a (gtt_fractal_dimension chi gtt) gtt / 3.0 in
    let r := gtt_friedmann_equation a (cosmo, gtt) in
    (status r = _FAILURE_ <-> (a <=? 0) = true \/ (H2 <? 0) = true)
    /\ (status r = _FAILURE_ <-> r = None)
    /\ (status r <> _FAILURE_ <-> status r = _SUCCESS_ /\ r = Some (sqrt H2)).
Proof.
  intros a cosmo gtt chi K H2 r.
  assert (Hr : r = if a <=? 0 then None
                   else if H2 <? 0 then None else Some (sqrt H2))
    by reflexivity.
  clearbody r H2. subst r.
  destruct (a <=? 0); [|destruct (H2 <? 0)]; cbn [status];
    unfold _FAILURE_, _SUCCESS_; repeat split; intros; auto;
    try discriminate; try lia; intuition (try discriminate; try lia).
Qed.

(** The immediate caller turns the failure into its own failure value. *)
Lemma hubble_at_z_reports_failure (z : float) (cosmo : cosmology_params)
      (gtt : gtt_params) :
  status (gtt_friedmann_equation (1.0 / (1.0 + z)) (cosmo, gtt)) = _FAILURE_ ->
  gtt_hubble_at_z z cosmo gtt = - 1.0.
Proof.
  unfold gtt_hubble_at_z.
  destruct (gtt_friedmann_equation (1.0 / (1.0 + z)) (cosmo, gtt));
    [discriminate | reflexivity].
Qed.

(** *** rg_find_fixed_points *)

(** C2.  [rg_find_fixed_points] reports exactly one fixed point, at
    [chi = chi_P / 2] with [D = 3 - sqrt (pi / 6)] (and [G = 1]), when
    [|3 - sqrt (pi / 6) - D_asymptotic| < 0.5], and none otherwise, leaving
    the output arrays as they were; with [D_asymptotic = 2.7916667], the
    default, it reports none. *)
Theorem find_fixed_points_single_candidate :
  forall (c0 : float) (chi_fixed : list float)
         (s0 : rg_state) (state_fixed : list rg_state) (p : gtt_params),
    let D_fixed := 3.0 - sqrt (M_PI / 6.0) in
    let near := fabs (D_fixed - D_asymptotic p) <? 0.5 in
    let r := rg_find_fixed_points (c0 :: chi_fixed) (s0 :: state_fixed) p in
    (near = true <->
       r = (1%Z, chi_P p / 2.0 :: chi_fixed,
            {| G := 1.0; D := D_fixed; Lambda := Lambda s0;
               g_gauge := g_gauge s0; y_yukawa := y_yukawa s0 |} :: state_fixed))
    /\ (near = false <-> r = (0%Z, c0 :: chi_fixed, s0 :: state_fixed))
    /\ (D_asymptotic p = GTT_D_ASYMPTOTIC -> fst (fst r) = 0%Z)
    /\ fst (fst (rg_find_fixed_points (c0 :: chi_fixed) (s0 :: state_fixed)
                                      (gtt_params_init p))) = 0%Z.
Proof.
  intros c0 chi_fixed s0 state_fixed p D_fixed near r.
  assert (Hr : r = if near
                   then (1%Z, chi_P p / 2.0 :: chi_fixed,
                         set_G (set_D s0 D_fixed) 1.0 :: state_fixed)
                   else (0%Z, c0 :: chi_fixed, s0 :: state_fixed))
    by (subst r near D_fixed; unfold rg_find_fixed_points;
        destruct (fabs _ <? 0.5); reflexivity).
  assert (Hdefault : (fabs (D_fixed - GTT_D_ASYMPTOTIC) <? 0.5) = false)
    by (vm_compute; reflexivity).
  assert (Hnear : D_asymptotic p = GTT_D_ASYMPTOTIC -> near = false)
    by (intros Hp; subst near; rewrite Hp; exact Hdefault).
  clearbody r near. subst r.
  split; [|split; [|split]].
  - destruct near; split; intros E; try reflexivity; try discriminate.
  - destruct near; split; intros E; try reflexivity; try discriminate.
  - intros Hp. rewrite (Hnear Hp). reflexivity.
  - unfold rg_find_fixed_points. cbn [D_asymptotic gtt_params_init].
    fold D_fixed. rewrite Hdefault. reflexivity.
Qed.

(** *** rg_integrate and rg_flow_full *)

(** C3 (as the code has it).  [rg_integrate] tests nothing: for every
    input state, every [chi_start] and [chi_end] (finite or not) and every
    parameter set it returns the success code [0], and the state it leaves
    is the input state after exactly 1000 Runge-Kutta steps of the fixed
    size [h = (chi_end - chi_start) / 1000], step [i] starting at
    [chi_start + i h]. *)
Theorem rg_integrate_always_succeeds_after_1000_steps :
  forall (state_in : rg_state) (chi_start chi_end : float) (p : gtt_params),
    let h := (chi_end - chi_start) / 1000 in
    let steps := indices 0 1000 in
    length steps = 1000%nat
    /\ rg_integrate state_in chi_start chi_end p
       = (0%Z,
          fold_left (fun s i => rk4_step s (chi_start + of_int i * h) h p)
                    steps state_in).
Proof.
  intros state_in chi_start chi_end p h steps. split.
  - apply indices_length.
  - unfold rg_integrate. rewrite for_loop_fold. reflexivity.
Qed.

Lemma rk4_step_keeps_yukawa (s : rg_state) (chi h : float) (p : gtt_params) :
  y_yukawa (rk4_step s chi h p) = y_yukawa s.
Proof. reflexivity. Qed.

Lemma rg_integrate_keeps_yukawa (s : rg_state) (chi_start chi_end : float)
      (p : gtt_params) :
  y_yukawa (snd (rg_integrate s chi_start chi_end p)) = y_yukawa s.
Proof.
  unfold rg_integrate, for_loop. cbn [snd].
  apply (for_range_invariant (fun s' => y_yukawa s' = y_yukawa s)); [|reflexivity].
  intros i s' Hs'. now rewrite rk4_step_keeps_yukawa.
Qed.

(** C8.  For every input state, interval and parameter set the state
    [rg_integrate] leaves has the [y_yukawa] of the input state; and every
    state [rg_flow_full] writes carries the Planck-scale values
    [1.0, 0.02, 0.01]. *)
Theorem yukawa_couplings_are_never_updated :
  (forall (state_in : rg_state) (chi_start chi_end : float) (p : gtt_params),
      y_yukawa (snd (rg_integrate state_in chi_start chi_end p))
      = y_yukawa state_in)
  /\ (forall (chi_array : list float) (n_points : Z) (p : gtt_params),
         Forall (fun s => y_yukawa s = (1.0, 0.02, 0.01))
                (snd (rg_flow_full chi_array n_points p))).
Proof.
  split; [exact rg_integrate_keeps_yukawa|].
  intros chi_array n_points p. unfold rg_flow_full, for_loop.
  set (inv := fun cs : rg_state * list rg_state =>
                y_yukawa (fst cs) = (1.0, 0.02, 0.01)
                /\ Forall (fun s => y_yukawa s = (1.0, 0.02, 0.01)) (snd cs)).
  match goal with
  | |- context [for_range ?n ?i ?body ?s0] =>
      assert (Hinv : inv (for_range n i body s0))
  end.
  { apply for_range_invariant.
    - intros i [cur out] [Hcur Hout]. unfold inv. cbn [fst snd].
      assert (Hnew : y_yukawa (snd (rg_integrate cur (chi_at chi_array (i - 1))
                                                 (chi_at chi_array i) p))
                     = (1.0, 0.02, 0.01))
        by now rewrite rg_integrate_keeps_yukawa.
      split; [exact Hnew|].
      apply Forall_app. split; [exact Hout|]. now constructor.
    - split; cbn [fst snd]; [reflexivity|]. now constructor. }
  destruct (for_range _ _ _ _) as [cur out]. exact (proj2 Hinv).
Qed.

(** *** gtt_age_of_universe *)

(** C6.  [gtt_age_of_universe] is the sum, taken in index order from
    [0.0], of [da / (a_i H(a_i))] over the 1000 samples [a_i = i da],
    [da = 1/1000], [i = 1 .. 1000], restricted to the samples at which
    [gtt_friedmann_equation] succeeds (a failing sample contributes
    nothing and stops nothing), divided by [365.25 * 24 * 3600]. *)
Theorem age_of_universe_sums_successful_samples :
  forall (cosmo : cosmology_params) (gtt : gtt_params),
    let da := 1.0 / 1000.0 in
    let samples := indices 1 1000 in
    let term (i : Z) : list float :=
      let a := of_int i * da in
      match gtt_friedmann_equation a (cosmo, gtt) with
      | Some H => [da / (a * H)]
      | None => []
      end in
    (forall i, In i samples <-> (1 <= i <= 1000)%Z)
    /\ gtt_age_of_universe cosmo gtt
       = fold_left add (flat_map term samples) 0.0 / (365.25 * 24.0 * 3600.0).
Proof.
  intros cosmo gtt da samples term. split.
  - intros i. unfold samples. rewrite In_indices. lia.
  - unfold gtt_age_of_universe. rewrite for_loop_fold.
    rewrite fold_left_flat_map. f_equal.
    apply fold_left_ext_in. intros age i _. unfold term.
    change (1.0 / of_int 1000) with da.
    destruct (gtt_friedmann_equation (of_int i * da) (cosmo, gtt)); reflexivity.
Qed.

(** *** gtt_Q_term *)

Lemma Q_term_at_zero_nonfinite (D : float) (p : gtt_params) :
  nonfinite (gtt_Q_term 0 D p).
Proof.
  unfold gtt_Q_term.
  change (6.0 / (0 * 0)) with infinity.
  do 2 apply nonfinite_add_l.
  apply nonfinite_mul_r, nonfinite_infinity.
Qed.


(** *** gtt_distance_modulus *)

Lemma fold_left_map_index {A B S : Type} (f : S -> B -> S) (g : A -> B)
      (l : list A) :
  forall s : S, fold_left f (map g l) s = fold_left (fun s a => f s (g a)) l s.
Proof.
  induction l as [|a l IH]; intros s; cbn [map fold_left]; [reflexivity|apply IH].
Qed.

(** C4 (as the code has it).  For every redshift [z] (in particular every
    [z > 0]), with [z_i = (i + 0.5) z / 100], [i = 0 .. 99], the midpoint
    samples: [gtt_distance_modulus] returns its failure value [-1.0]
    whenever some sample has [H(z_i) < 0]; and when all samples have
    [H(z_i) > 0] it returns [5 log10 (d_L / Mpc) + 25] with
    [d_L = c (1 + z) sum_i dz / H(z_i)]. *)
Theorem distance_modulus_fails_on_negative_sample :
  forall (z : float) (cosmo : cosmology_params) (gtt : gtt_params),
    let dz := z / 100.0 in
    let Hs := map (fun i => gtt_hubble_at_z ((of_int i + 0.5) * dz) cosmo gtt)
                  (indices 0 100) in
    ((exists H, In H Hs /\ (H <? 0) = true) ->
     gtt_distance_modulus z cosmo gtt = - 1.0)
    /\ ((forall H, In H Hs -> (0 <? H) = true) ->
        gtt_distance_modulus z cosmo gtt
        = 5.0 * log10 (299792458.0 * (1.0 + z)
                       * fold_left (fun acc H => acc + dz / H) Hs 0.0
                       / 3.08567758e22)
          + 25.0).
Proof.
  intros z cosmo gtt dz Hs.
  unfold gtt_distance_modulus, for_loop_ret.
  change (z / of_int 100) with dz.
  change (Z.to_nat (100 - 0)) with 100%nat.
  set (Hz := fun i => gtt_hubble_at_z ((of_int i + 0.5) * dz) cosmo gtt).
  split.
  - intros (H & HIn & Hneg). apply in_map_iff in HIn. destruct HIn as (j & <- & Hj).
    rewrite (for_range_ret_some_return _ (- 1.0)); [reflexivity| |].
    + intros k s' _.
      destruct (gtt_hubble_at_z ((of_int k + 0.5) * dz) cosmo gtt <? 0);
        [left; reflexivity | right; eexists; reflexivity].
    + exists j. split; [exact Hj|]. intros s'. cbv beta zeta. now rewrite Hneg.
  - intros Hpos.
    rewrite (for_range_ret_all_continue _ (fun j s => s + dz / Hz j)).
    + unfold Hs. rewrite fold_left_map_index. reflexivity.
    + intros j s' Hj. cbv beta zeta.
      rewrite ltb_zero_asym; [reflexivity|].
      apply Hpos. unfold Hs. apply in_map_iff. now exists j.
Qed.

(** The static parameter set: every quantity of the Friedmann equation
    at [a = 1] is fixed by the special values of <math.h>, and the
    right-hand side is [+0]. *)
Lemma friedmann_static_at_one :
  gtt_friedmann_equation 1 (static_cosmo, static_gtt) = Some 0.
Proof.
  unfold gtt_friedmann_equation, rho_total, gtt_Q_term, gtt_cone_curvature,
    gtt_G_of_chi, gtt_Lambda_of_chi, gtt_fractal_dimension.
  cbn [fst snd static_cosmo static_gtt h Omega_b Omega_cdm theta_max
       D_asymptotic xi_G beta alpha chi_P].
  change (1 <=? 0.0) with false. cbv iota.
  rewrite log_one.
  change ((- 0) / 1.0) with (- 0).
  rewrite exp_neg_zero.
  change ((2.0 - (2.0 - 2.0) * 1 - 3.0) * 0) with (- 0).
  change ((- (3.0 - (2.0 - (2.0 - 2.0) * 1))) * 0 / 2.0) with (- 0).
  rewrite exp_neg_zero.
  change (0.0 * M_PI / 180.0) with 0.
  rewrite !pow_one_base, sin_pos_zero, pow_zero_two.
  reflexivity.
Qed.

(** At a redshift below the rounding unit every midpoint sample has
    [1 + z_i = 1], hence [a = 1]. *)
Lemma tiny_redshift_samples_at_one (i : Z) :
  In i (indices 0 100) ->
  1.0 / (1.0 + (of_int i + 0.5) * (1e-20 / 100.0)) = 1.
Proof.
  intros Hi.
  assert (Hall : forallb (fun i => Leibniz.eqb
                            (1.0 / (1.0 + (of_int i + 0.5) * (1e-20 / 100.0))) 1)
                         (indices 0 100) = true)
    by (vm_compute; reflexivity).
  rewrite forallb_forall in Hall. apply Leibniz.eqb_spec, Hall, Hi.
Qed.

Lemma hubble_static_samples (i : Z) :
  In i (indices 0 100) ->
  gtt_hubble_at_z ((of_int i + 0.5) * (1e-20 / 100.0)) static_cosmo static_gtt = 0.
Proof.
  intros Hi. unfold gtt_hubble_at_z.
  rewrite (tiny_redshift_samples_at_one i Hi), friedmann_static_at_one.
  reflexivity.
Qed.

(** With a vanishing Hubble rate at every sample the loop divides by
    zero at each step and the function returns plus infinity. *)
Lemma distance_modulus_static :
  gtt_distance_modulus 1e-20 static_cosmo static_gtt = infinity.
Proof.
  unfold gtt_distance_modulus, for_loop_ret.
  change (1e-20 / of_int 100) with (1e-20 / 100.0).
  change (Z.to_nat (100 - 0)) with 100%nat.
  rewrite (for_range_ret_all_continue _ (fun _ s => s + 1e-20 / 100.0 / 0)).
  - match goal with
    | |- context [log10 ?x] =>
        replace x with infinity by (vm_compute; reflexivity)
    end.
    rewrite log10_infinity. reflexivity.
  - intros j s' Hj. cbv beta zeta. rewrite (hubble_static_samples j Hj).
    reflexivity.
Qed.

End ForEveryLibm.

(** *** The statements above at concrete inputs *)

(** [gtt_friedmann_equation] on the default parameter set: success today
    ([a = 1]), failure at [a = 0], failure on a negative right-hand side
    (contracting universe), and, at a scale factor whose square underflows,
    a right-hand side that is NaN, which neither test rejects. *)
Example friedmann_default_today :
  let L := Reference.libm in
  @gtt_friedmann_equation L 1.0 (default_cosmo, default_gtt L)
  = Some 0.62958275910087358.
Proof. vm_compute. reflexivity. Qed.

Example friedmann_default_at_zero :
  let L := Reference.libm in
  status (@gtt_friedmann_equation L 0.0 (default_cosmo, default_gtt L)) = _FAILURE_.
Proof. vm_compute. reflexivity. Qed.

Example friedmann_contracting_today :
  let L := Reference.libm in
  status (@gtt_friedmann_equation L 1.0 (default_cosmo, contracting_gtt L))
  = _FAILURE_.
Proof. vm_compute. reflexivity. Qed.

Example friedmann_default_at_underflow :
  let L := Reference.libm in
  @gtt_friedmann_equation L 1e-200 (default_cosmo, default_gtt L) = Some nan.
Proof. vm_compute. reflexivity. Qed.

(** C3, the claim as stated.  "An error exactly when some input is not
    finite" fails at [chi_start = NaN]: the input is not finite and the
    call returns the success code [0], not the error code [-1]. *)
Lemma rg_integrate_accepts_nan_interval :
  let L := Reference.libm in
  let p := default_gtt L in
  is_finite nan = false
  /\ fst (@rg_integrate L (rg_init_planck p) nan 0 p) = 0%Z
  /\ fst (@rg_integrate L (rg_init_planck p) nan 0 p) <> (-1)%Z.
Proof.
  cbv zeta. split; [reflexivity|]. split; [reflexivity|]. discriminate.
Qed.

(** C4, the claim as stated.  "Fails whenever a sample has [H <= 0]"
    fails at [z = 1e-20] in the static universe: [z > 0], every one of
    the 100 samples has [H(z_i) = 0 <= 0], and the function returns plus
    infinity, not its failure value [-1.0]. *)
Lemma distance_modulus_divides_by_zero_hubble :
  let L := Reference.libm in
  let z := 1e-20 in
  (0 <? z) = true
  /\ (forall i, In i (indices 0 100) ->
                (@gtt_hubble_at_z L ((of_int i + 0.5) * (z / 100.0))
                                  static_cosmo static_gtt <=? 0) = true)
  /\ @gtt_distance_modulus L z static_cosmo static_gtt = infinity
  /\ @gtt_distance_modulus L z static_cosmo static_gtt <> - 1.0.
Proof.
  cbv zeta. split; [reflexivity|]. split; [|split].
  - intros i Hi. now rewrite hubble_static_samples.
  - apply distance_modulus_static.
  - rewrite distance_modulus_static. intros E.
    apply (f_equal is_infinity) in E. discriminate E.
Qed.

(** C4, both cases occur.  In the contracting universe at [z = 1] some
    sample has [H < 0] and the function returns [-1.0]; with the default
    parameters at [z = 1] every sample has [H > 0] and the function
    returns the distance modulus of the midpoint sum. *)
Lemma distance_modulus_cases_occur :
  let L := Reference.libm in
  let samples gtt :=
    map (fun i => @gtt_hubble_at_z L ((of_int i + 0.5) * (1.0 / 100.0))
                                   default_cosmo gtt)
        (indices 0 100) in
  (@gtt_distance_modulus L 1.0 default_cosmo (contracting_gtt L) = - 1.0)
  /\ (@gtt_distance_modulus L 1.0 default_cosmo (default_gtt L)
      = 5.0 * Reference.log10
                (299792458.0 * (1.0 + 1.0)
                 * fold_left (fun acc H => acc + 1.0 / 100.0 / H)
                             (samples (default_gtt L)) 0.0
                 / 3.08567758e22)
        + 25.0).
Proof.
  cbv zeta. split.
  - apply (proj1 (@distance_modulus_fails_on_negative_sample
                    Reference.libm 1.0 default_cosmo
                    (contracting_gtt Reference.libm))).
    exists (- 1.0). split; [|reflexivity].
    apply in_map_iff. exists 0%Z. split; [vm_compute; reflexivity|].
    apply In_indices. lia.
  - apply (proj2 (@distance_modulus_fails_on_negative_sample
                    Reference.libm 1.0 default_cosmo
                    (default_gtt Reference.libm))).
    assert (Hall : forallb (fun H => 0 <? H)
                     (map (fun i => @gtt_hubble_at_z Reference.libm
                                      ((of_int i + 0.5) * (1.0 / 100.0))
                                      default_cosmo (default_gtt Reference.libm))
                          (indices 0 100)) = true)
      by (vm_compute; reflexivity).
    rewrite forallb_forall in Hall. exact Hall.
Defined.

(** [rg_find_fixed_points] at the default parameter set. *)
Example find_fixed_points_default_binary64 :
  let p := default_gtt Reference.libm in
  rg_find_fixed_points [0.0] [rg_init_planck p] p
  = (0%Z, [0.0], [rg_init_planck p]).
Proof. vm_compute. reflexivity. Qed.


(* ------------------------------------------------------------------ *)
(** ** Further properties in the binary64 reading                      *)
(* ------------------------------------------------------------------ *)

(** *** More facts of binary64 arithmetic *)

Lemma Prim2SF_nan (x : float) : Prim2SF x = S754_nan -> x = nan.
Proof. intros E. apply Prim2SF_inj. now rewrite E. Qed.

(** Rounding keeps the sign it is given. *)
Lemma binary_round_aux_sign (sx : bool) (mx ex : Z) (lx : location) :
  match binary_round_aux prec emax sx mx ex lx with
  | S754_nan => True
  | S754_zero s => s = sx
  | S754_infinity s => s = sx
  | S754_finite s _ _ => s = sx
  end.
Proof.
  unfold binary_round_aux.
  destruct (shr_fexp prec emax mx ex lx) as [mrs' e'].
  destruct (shr_fexp prec emax _ e' loc_Exact) as [mrs'' e''].
  destruct (shr_m mrs''); [reflexivity| |exact I].
  destruct (e'' <=? emax - prec)%Z; reflexivity.
Qed.

Lemma sqrt_sign (x : float) : sign_is false (sqrt x).
Proof.
  unfold sign_is, sqrt. rewrite sqrt_spec. unfold SF64sqrt, SFsqrt.
  destruct (Prim2SF x) as [s|s| |s m e]; try destruct s; try exact I;
    try reflexivity.
  destruct (SFsqrt_core_binary prec emax (Z.pos m) e) as [[mz ez] lz].
  pose proof (binary_round_aux_sign false mz ez lz) as Hs.
  destruct (binary_round_aux prec emax false mz ez lz); auto.
Qed.

Lemma mul_sign (b1 b2 : bool) (x y : float) :
  sign_is b1 x -> sign_is b2 y -> sign_is (xorb b1 b2) (x * y).
Proof.
  unfold sign_is. rewrite mul_spec. unfold SF64mul, SFmul.
  destruct (Prim2SF x) as [sx|sx| |sx mx ex];
    destruct (Prim2SF y) as [sy|sy| |sy my ey]; intros Hx Hy;
    try exact I; subst; try reflexivity.
  pose proof (binary_round_aux_sign (xorb b1 b2) (Z.pos (mx * my)) (ex + ey)
                                    loc_Exact) as Hs.
  destruct (binary_round_aux prec emax (xorb b1 b2) _ _ loc_Exact); auto.
Qed.

Lemma sign_false_not_below_zero (x : float) : sign_is false x -> (x <? 0) = false.
Proof.
  unfold sign_is. rewrite ltb_spec. change (Prim2SF 0) with (S754_zero false).
  destruct (Prim2SF x) as [s|s| |s m e]; intros Hs; subst; reflexivity.
Qed.

Lemma sign_true_not_above_zero (x : float) : sign_is true x -> (0 <? x) = false.
Proof.
  unfold sign_is. rewrite ltb_spec. change (Prim2SF 0) with (S754_zero false).
  destruct (Prim2SF x) as [s|s| |s m e]; intros Hs; subst; reflexivity.
Qed.

Lemma sqrt_not_below_zero (x : float) : (sqrt x <? 0) = false.
Proof. apply sign_false_not_below_zero, sqrt_sign. Qed.

(** What [is_finite] rejects is NaN or an infinity. *)
Lemma is_finite_false_nonfinite (x : float) : is_finite x = false -> nonfinite x.
Proof.
  unfold is_finite, is_nan, is_infinity, nonfinite.
  rewrite !eqb_spec, abs_spec.
  destruct (Prim2SF x) as [s|s| |s m e]; eauto; intros E; exfalso.
  - destruct s; discriminate E.
  - unfold SFeqb, SFcompare in E. cbn in E.
    rewrite Z.compare_refl, Pos.compare_cont_refl in E.
    destruct s; cbn in E; discriminate E.
Qed.

Lemma nonfinite_add_r (x y : float) : nonfinite y -> nonfinite (x + y).
Proof.
  unfold nonfinite. rewrite add_spec. unfold SF64add.
  intros [-> | (s & ->)]; destruct (Prim2SF x) as [sx|sx| |sx mx ex];
    cbn; eauto; destruct s, sx; eauto.
Qed.

Lemma nonfinite_sub_r (x y : float) : nonfinite y -> nonfinite (x - y).
Proof.
  unfold nonfinite. rewrite sub_spec. unfold SF64sub.
  intros [-> | (s & ->)]; destruct (Prim2SF x) as [sx|sx| |sx mx ex];
    cbn; eauto; destruct s, sx; eauto.
Qed.

Lemma nonfinite_abs_not_below (x y : float) :
  nonfinite x -> is_nan y = false -> is_infinity y = false ->
  (abs x <? y) = false.
Proof.
  unfold nonfinite, is_nan, is_infinity.
  rewrite ltb_spec, !eqb_spec, !abs_spec.
  intros [-> | (s & ->)]; [reflexivity|].
  destruct (Prim2SF y) as [sy|sy| |sy my ey]; cbn; intros Hn Hi;
    try reflexivity; try discriminate.
Qed.

(** Arithmetic on NaN. *)
Lemma sub_nan_r (x : float) : x - nan = nan.
Proof.
  apply Prim2SF_nan. rewrite sub_spec. change (Prim2SF nan) with S754_nan.
  now destruct (Prim2SF x).
Qed.

Lemma add_nan_l (x : float) : nan + x = nan.
Proof.
  apply Prim2SF_nan. rewrite add_spec. change (Prim2SF nan) with S754_nan.
  reflexivity.
Qed.

Lemma mul_nan_l (x : float) : nan * x = nan.
Proof.
  apply Prim2SF_nan. rewrite mul_spec. change (Prim2SF nan) with S754_nan.
  reflexivity.
Qed.

Lemma zero_div_zero (x : float) : (x =? 0) = true -> 0 / x = nan.
Proof.
  rewrite eqb_spec. change (Prim2SF 0) with (S754_zero false). intros E.
  apply Prim2SF_nan. rewrite div_spec. change (Prim2SF 0) with (S754_zero false).
  unfold SF64div.
  destruct (Prim2SF x) as [s|s| |s m e]; try destruct s; cbn in E |- *;
    try discriminate E; reflexivity.
Qed.

Lemma is_nan_true (x : float) : is_nan x = true -> x = nan.
Proof.
  unfold is_nan. rewrite eqb_spec. intros E. apply Prim2SF_nan.
  destruct (Prim2SF x) as [s|s| |s m e]; try reflexivity; exfalso.
  - destruct s; discriminate E.
  - destruct s; discriminate E.
  - unfold SFeqb, SFcompare in E. cbn in E.
    rewrite Z.compare_refl, Pos.compare_cont_refl in E.
    destruct s; cbn in E; discriminate E.
Qed.

(** The square of a number does not see its sign. *)
Lemma square_opp (x : float) : (- x) * (- x) = x * x.
Proof.
  apply Prim2SF_inj. rewrite !mul_spec, opp_spec. unfold SF64mul.
  destruct (Prim2SF x) as [s|s| |s m e]; cbn; try reflexivity;
    destruct s; reflexivity.
Qed.

Section MoreForEveryLibm.

Context {libm : Libm}.

(** *** gtt_hubble_at_z and gtt_distance_modulus *)

Lemma friedmann_success_is_root (a : float)
      (params : cosmology_params * gtt_params) (H : float) :
  gtt_friedmann_equation a params = Some H -> exists x, H = sqrt x.
Proof.
  unfold gtt_friedmann_equation. destruct (a <=? 0.0); [discriminate|].
  cbv zeta.
  match goal with
  | |- (if ?c then None else Some (sqrt ?x)) = _ -> _ => destruct c
  end; [discriminate|].
  intros E. inversion E. eauto.
Qed.

Lemma hubble_at_z_below_zero (z : float) (cosmo : cosmology_params)
      (gtt : gtt_params) :
  (gtt_hubble_at_z z cosmo gtt <? 0)
  = match gtt_friedmann_equation (1.0 / (1.0 + z)) (cosmo, gtt) with
    | None => true
    | Some _ => false
    end.
Proof.
  unfold gtt_hubble_at_z.
  destruct (gtt_friedmann_equation (1.0 / (1.0 + z)) (cosmo, gtt)) as [H|] eqn:E.
  - destruct (friedmann_success_is_root _ _ _ E) as (x & ->).
    apply sqrt_not_below_zero.
  - reflexivity.
Qed.

(** X1.  The value [gtt_hubble_at_z] returns is below zero exactly when
    the Friedmann evaluation at [a = 1 / (1 + z)] fails: a successful
    evaluation returns a square root, which is never below zero, so the
    failure value [-1.0] cannot be mistaken for a Hubble rate. *)
Theorem hubble_at_z_below_zero_iff_failure :
  forall (z : float) (cosmo : cosmology_params) (gtt : gtt_params),
    (gtt_hubble_at_z z cosmo gtt <? 0) = true
    <-> gtt_friedmann_equation (1.0 / (1.0 + z)) (cosmo, gtt) = None.
Proof.
  intros z cosmo gtt. rewrite hubble_at_z_below_zero.
  destruct (gtt_friedmann_equation _ _); split; intros E;
    try reflexivity; discriminate E.
Qed.

(** X2.  [gtt_distance_modulus] returns [-1.0] if the Friedmann
    evaluation fails at one of the 100 midpoint samples, and in every
    other case (a vanishing or NaN Hubble rate included) the distance
    modulus of the midpoint sum over all 100 samples. *)
Theorem distance_modulus_by_friedmann_failure :
  forall (z : float) (cosmo : cosmology_params) (gtt : gtt_params),
    let dz := z / 100.0 in
    let z_mid := fun i => (of_int i + 0.5) * dz in
    let failed := fun i =>
      match gtt_friedmann_equation (1.0 / (1.0 + z_mid i)) (cosmo, gtt) with
      | None => true
      | Some _ => false
      end in
    let Hs := map (fun i => gtt_hubble_at_z (z_mid i) cosmo gtt) (indices 0 100) in
    gtt_distance_modulus z cosmo gtt
    = if existsb failed (indices 0 100) then - 1.0
      else 5.0 * log10 (299792458.0 * (1.0 + z)
                        * fold_left (fun acc H => acc + dz / H) Hs 0.0
                        / 3.08567758e22)
           + 25.0.
Proof.
  intros z cosmo gtt dz z_mid failed Hs.
  unfold gtt_distance_modulus, for_loop_ret.
  change (z / of_int 100) with dz.
  change (Z.to_nat (100 - 0)) with 100%nat.
  destruct (existsb failed (indices 0 100)) eqn:Hex.
  - apply existsb_exists in Hex. destruct Hex as (j & Hj & Hfail).
    rewrite (for_range_ret_some_return _ (- 1.0)); [reflexivity| |].
    + intros k s' _.
      destruct (gtt_hubble_at_z ((of_int k + 0.5) * dz) cosmo gtt <? 0);
        [left; reflexivity | right; eexists; reflexivity].
    + exists j. split; [exact Hj|]. intros s'. cbv beta zeta.
      rewrite hubble_at_z_below_zero. fold (z_mid j). fold (failed j).
      now rewrite Hfail.
  - rewrite (for_range_ret_all_continue
               _ (fun j s => s + dz / gtt_hubble_at_z (z_mid j) cosmo gtt)).
    + unfold Hs. rewrite fold_left_map_index. reflexivity.
    + intros j s' Hj. cbv beta zeta.
      rewrite hubble_at_z_below_zero. fold (z_mid j). fold (failed j).
      assert (Hnot : failed j = false).
      { destruct (failed j) eqn:Hf; [|reflexivity].
        assert (Hex' : existsb failed (indices 0 100) = true)
          by (apply existsb_exists; eauto).
        rewrite Hex in Hex'. discriminate Hex'. }
      now rewrite Hnot.
Qed.

(** *** gtt_friedmann_equation *)

(** X3.  A scale factor that passes the test [a <= 0] but whose square
    is zero (underflow) or which is NaN is not rejected: the curvature
    term [K / (a * a)] is then [0 / 0] or NaN, the right-hand side is
    NaN, the test [H_squared < 0] is false and the call succeeds with the
    Hubble value NaN. *)
Theorem friedmann_succeeds_with_nan :
  forall (a : float) (cosmo : cosmology_params) (gtt : gtt_params),
    (a <=? 0) = false ->
    (a * a =? 0) = true \/ is_nan a = true ->
    gtt_friedmann_equation a (cosmo, gtt) = Some nan.
Proof.
  intros a cosmo gtt Ha Hsq.
  assert (HK : 0.0 / (a * a) = nan).
  { destruct Hsq as [Hz | Hn].
    - now apply zero_div_zero.
    - apply is_nan_true in Hn. subst a. reflexivity. }
  unfold gtt_friedmann_equation. cbv zeta. change 0.0 with 0 in *.
  rewrite Ha, HK, sub_nan_r, !add_nan_l. reflexivity.
Qed.

(** *** gtt_acceleration_equation *)

(** X4.  [gtt_acceleration_equation] has no test on [a]: at [a = 0] it
    returns, for every parameter set, a value that is not finite (the
    quantum-geometry term divides by [a * a]). *)
Theorem acceleration_at_zero_is_not_finite :
  forall (cosmo : cosmology_params) (gtt : gtt_params),
    is_finite (gtt_acceleration_equation 0 cosmo gtt) = false.
Proof.
  intros cosmo gtt. apply nonfinite_is_finite.
  unfold gtt_acceleration_equation. cbv zeta.
  apply nonfinite_add_r, nonfinite_div_l, nonfinite_mul_l.
  apply Q_term_at_zero_nonfinite.
Qed.

(** *** gtt_Q_term and gtt_cone_curvature *)

(** X5.  [gtt_Q_term] and [gtt_cone_curvature] see the scale factor only
    through [a * a]: [a] and [-a] give the same result, bit for bit. *)
Theorem Q_term_even_in_scale_factor :
  forall (a D : float) (p : gtt_params),
    gtt_Q_term (- a) D p = gtt_Q_term a D p
    /\ gtt_cone_curvature (theta_max p) (- a) = gtt_cone_curvature (theta_max p) a.
Proof.
  intros a D p. unfold gtt_Q_term, gtt_cone_curvature. cbv zeta.
  rewrite !square_opp. split; reflexivity.
Qed.

(** *** gtt_age_of_universe *)

(** X6.  When the Friedmann evaluation fails at every one of the 1000
    samples, [gtt_age_of_universe] reports no error: it returns an age of
    [0] years. *)
Theorem age_of_universe_zero_when_all_samples_fail :
  forall (cosmo : cosmology_params) (gtt : gtt_params),
    (forall i, (1 <= i <= 1000)%Z ->
               gtt_friedmann_equation (of_int i * (1.0 / 1000.0)) (cosmo, gtt) = None) ->
    gtt_age_of_universe cosmo gtt = 0.
Proof.
  intros cosmo gtt Hall. unfold gtt_age_of_universe. rewrite for_loop_fold.
  change (1.0 / of_int 1000) with (1.0 / 1000.0).
  rewrite (fold_left_ext_in _ (fun age _ => age)).
  - assert (Hid : forall (l : list Z) (s : float),
               fold_left (fun age _ => age) l s = s)
      by (induction l as [|x l IH]; intros s0; cbn; auto).
    rewrite Hid. reflexivity.
  - intros age i Hi. apply In_indices in Hi.
    rewrite Hall by (change (Z.of_nat (Z.to_nat (1000 + 1 - 1))) with 1000%Z in Hi; lia).
    reflexivity.
Qed.

(** *** gtt_resolve_hubble_tension *)

(** X7.  [gtt_resolve_hubble_tension] does not test the failure value of
    [gtt_hubble_at_z]: when the Friedmann evaluation fails at [z = 1100]
    (at [z = 0.1]) the value [-1.0] is rescaled like a rate and the early
    (late) [H0] it returns is not above zero; when the evaluation succeeds
    the returned [H0] is not below zero. *)
Theorem hubble_tension_sign_tells_failure :
  forall (cosmo : cosmology_params) (gtt : gtt_params),
    let fr := fun z => gtt_friedmann_equation (1.0 / (1.0 + z)) (cosmo, gtt) in
    let r := gtt_resolve_hubble_tension cosmo gtt in
    (fr 1100.0 = None -> (0 <? fst r) = false)
    /\ (fr 1100.0 <> None -> (fst r <? 0) = false)
    /\ (fr 0.1 = None -> (0 <? snd r) = false)
    /\ (fr 0.1 <> None -> (snd r <? 0) = false).
Proof.
  intros cosmo gtt fr r.
  assert (Hconv : sign_is false (3.08567758e22 / 1000.0))
    by (unfold sign_is; vm_compute; reflexivity).
  assert (Hminus : sign_is true (- 1.0))
    by (unfold sign_is; vm_compute; reflexivity).
  assert (Hfail : forall z x,
             fr z = None ->
             (0 <? gtt_hubble_at_z z cosmo gtt * sqrt x * (3.08567758e22 / 1000.0))
             = false).
  { intros z x E. unfold gtt_hubble_at_z. unfold fr in E. rewrite E.
    apply sign_true_not_above_zero.
    apply (mul_sign true false); [|exact Hconv].
    apply (mul_sign true false); [exact Hminus | apply sqrt_sign]. }
  assert (Hok : forall z x,
             fr z <> None ->
             (gtt_hubble_at_z z cosmo gtt * sqrt x * (3.08567758e22 / 1000.0) <? 0)
             = false).
  { intros z x E. unfold gtt_hubble_at_z. unfold fr in E.
    destruct (gtt_friedmann_equation (1.0 / (1.0 + z)) (cosmo, gtt)) as [H|] eqn:EH;
      [|now elim E].
    destruct (friedmann_success_is_root _ _ _ EH) as (y & ->).
    apply sign_false_not_below_zero.
    apply (mul_sign false false); [|exact Hconv].
    apply (mul_sign false false); apply sqrt_sign. }
  unfold r, gtt_resolve_hubble_tension. cbv zeta. cbn [fst snd].
  repeat split; intros E; auto.
Qed.

(** *** rg_flow_full *)

Lemma flow_loop_spec (chi_array : list float) (p : gtt_params) (d : rg_state)
      (n : nat) :
  forall (i : Z) (cur : rg_state) (out : list rg_state),
    out <> [] -> last out d = cur -> i = Z.of_nat (length out) ->
    let body := fun (i : Z) '(current_state, states_out) =>
      let states_out_i :=
        snd (rg_integrate current_state
                          (chi_at chi_array (i - 1)) (chi_at chi_array i) p) in
      (states_out_i, states_out ++ [states_out_i]) in
    let r := snd (for_range n i body (cur, out)) in
    length r = (length out + n)%nat
    /\ (forall j, (j < length out)%nat -> nth j r d = nth j out d)
    /\ (forall j, (length out <= j < length out + n)%nat ->
                  nth j r d
                  = snd (rg_integrate (nth (j - 1) r d)
                                      (chi_at chi_array (Z.of_nat j - 1))
                                      (chi_at chi_array (Z.of_nat j)) p)).
Proof.
  induction n as [|n IH]; intros i cur out Hne Hlast Hi body r.
  - subst r. cbn [for_range snd]. split; [lia|]. split; [auto|]. intros j Hj. lia.
  - subst r. cbn [for_range]. unfold body at 2.
    set (new := snd (rg_integrate cur (chi_at chi_array (i - 1))
                                  (chi_at chi_array i) p)).
    assert (Hlen' : length (out ++ [new]) = S (length out))
      by (rewrite length_app; cbn; lia).
    destruct (IH (i + 1)%Z new (out ++ [new])) as (IHlen & IHpre & IHstep).
    { now destruct out. }
    { apply last_last. }
    { rewrite Hlen'. lia. }
    fold body in IHlen, IHpre, IHstep |- *.
    rewrite Hlen' in IHlen, IHpre, IHstep.
    split; [lia|]. split.
    + intros j Hj. rewrite IHpre by lia. now apply app_nth1.
    + intros j Hj.
      destruct (Nat.eq_dec j (length out)) as [-> | Hneq].
      * rewrite IHpre by lia. rewrite nth_middle.
        rewrite IHpre by (destruct out; [now elim Hne | cbn; lia]).
        rewrite app_nth1 by (destruct out; [now elim Hne | cbn; lia]).
        assert (Hcur : nth (length out - 1) out d = cur).
        { rewrite <- Hlast. destruct out as [|x out]; [now elim Hne|].
          cbn [length]. rewrite Nat.sub_succ, Nat.sub_0_r.
          clear. revert x. induction out as [|y out IHo]; intros x; [reflexivity|].
          change (nth (length (y :: out)) (x :: y :: out) d)
            with (nth (length out) (y :: out) d).
          change (last (x :: y :: out) d) with (last (y :: out) d).
          apply IHo. }
        rewrite Hcur, <- Hi. reflexivity.
      * apply IHstep. lia.
Qed.

(** X8.  [rg_flow_full] returns [0] and writes [n_points] states, one
    state even when [n_points <= 0]: entry [0] is the Planck-scale initial
    condition, and every later entry [j] is what [rg_integrate] makes of
    entry [j - 1] over the interval from [chi_array[j-1]] to
    [chi_array[j]]. *)
Theorem rg_flow_full_threads_checkpoints :
  forall (chi_array : list float) (n_points : Z) (p : gtt_params) (d : rg_state),
    let r := rg_flow_full chi_array n_points p in
    fst r = 0%Z
    /\ length (snd r) = S (Z.to_nat (n_points - 1))
    /\ nth 0 (snd r) d = rg_init_planck p
    /\ (forall j, (1 <= j)%nat -> (Z.of_nat j < n_points)%Z ->
                  nth j (snd r) d
                  = snd (rg_integrate (nth (j - 1) (snd r) d)
                                      (chi_at chi_array (Z.of_nat j - 1))
                                      (chi_at chi_array (Z.of_nat j)) p)).
Proof.
  intros chi_array n_points p d r.
  pose proof (flow_loop_spec chi_array p d (Z.to_nat (n_points - 1)) 1
                (rg_init_planck p) [rg_init_planck p]) as Hloop.
  cbv zeta in Hloop.
  destruct Hloop as (Hlen & Hpre & Hstep); [discriminate|reflexivity|reflexivity|].
  assert (Hr : r = (0%Z,
                    snd (for_range (Z.to_nat (n_points - 1)) 1
                           (fun (i : Z) '(current_state, states_out) =>
                              let states_out_i :=
                                snd (rg_integrate current_state
                                       (chi_at chi_array (i - 1))
                                       (chi_at chi_array i) p) in
                              (states_out_i, states_out ++ [states_out_i]))
                           (rg_init_planck p, [rg_init_planck p])))).
  { unfold r, rg_flow_full, for_loop.
    destruct (for_range _ _ _ _) as [cur out]. reflexivity. }
  rewrite Hr. cbn [fst snd]. cbn [length] in Hlen, Hpre, Hstep.
  split; [reflexivity|]. split; [exact Hlen|]. split.
  - rewrite Hpre by lia. reflexivity.
  - intros j Hj1 Hj2. apply Hstep. lia.
Qed.

(** *** rk4_step and rg_integrate: which coupling drives which *)

Lemma rk4_step_slopes (s : rg_state) (chi h : float) (p : gtt_params) :
  rk4_step s chi h p
  = let k1 := rg_slope_at s chi p in
    let k2 := rg_slope_at (rk4_temp s (0.5 * h) k1) (chi + 0.5 * h) p in
    let k3 := rg_slope_at (rk4_temp s (0.5 * h) k2) (chi + 0.5 * h) p in
    let k4 := rg_slope_at (rk4_temp s h k3) (chi + h) p in
    rk4_combine s h k1 k2 k3 k4.
Proof. reflexivity. Qed.

(** A relation between two states that the slopes, the intermediate
    states and the combination respect is kept by a whole step. *)
Section Rk4Slice.

Variable agree : rg_state -> rg_state -> Prop.
Variable kagree : rg_slope -> rg_slope -> Prop.

Hypothesis slope_agree :
  forall s s' chi p,
    agree s s' -> kagree (rg_slope_at s chi p) (rg_slope_at s' chi p).
Hypothesis temp_agree :
  forall s s' c k k',
    agree s s' -> kagree k k' -> agree (rk4_temp s c k) (rk4_temp s' c k').
Hypothesis combine_agree :
  forall s s' h k1 k1' k2 k2' k3 k3' k4 k4',
    agree s s' -> kagree k1 k1' -> kagree k2 k2' -> kagree k3 k3' ->
    kagree k4 k4' ->
    agree (rk4_combine s h k1 k2 k3 k4) (rk4_combine s' h k1' k2' k3' k4').

Lemma rk4_step_slice (s s' : rg_state) (chi h : float) (p : gtt_params) :
  agree s s' -> agree (rk4_step s chi h p) (rk4_step s' chi h p).
Proof.
  intros Hs. rewrite !rk4_step_slopes. cbv zeta.
  assert (K1 := slope_agree s s' chi p Hs).
  assert (T1 := temp_agree s s' (0.5 * h) _ _ Hs K1).
  assert (K2 := slope_agree _ _ (chi + 0.5 * h) p T1).
  assert (T2 := temp_agree s s' (0.5 * h) _ _ Hs K2).
  assert (K3 := slope_agree _ _ (chi + 0.5 * h) p T2).
  assert (T3 := temp_agree s s' h _ _ Hs K3).
  assert (K4 := slope_agree _ _ (chi + h) p T3).
  now apply combine_agree.
Qed.

End Rk4Slice.

Lemma get3_tabulate3 (f : Z -> float) (i : Z) :
  (0 <= i <= 2)%Z -> get3 (tabulate3 f) i = f i.
Proof.
  intros Hi. assert (Hc : i = 0%Z \/ i = 1%Z \/ i = 2%Z) by lia.
  destruct Hc as [-> | [-> | ->]]; reflexivity.
Qed.

Lemma rk4_step_D (s s' : rg_state) (chi h : float) (p : gtt_params) :
  D s = D s' -> D (rk4_step s chi h p) = D (rk4_step s' chi h p).
Proof.
  apply (rk4_step_slice (fun a b => D a = D b) (fun k k' => kD k = kD k')).
  - intros a b c q E. unfold rg_slope_at, rg_beta_D. cbn [kD]. now rewrite E.
  - intros a b c k k' E Ek. unfold rk4_temp. cbn [D]. now rewrite E, Ek.
  - intros a b h0 k1 k1' k2 k2' k3 k3' k4 k4' E E1 E2 E3 E4.
    unfold rk4_combine. cbn [D]. now rewrite E, E1, E2, E3, E4.
Qed.

Lemma rk4_step_DG (s s' : rg_state) (chi h : float) (p : gtt_params) :
  D s = D s' /\ G s = G s' ->
  D (rk4_step s chi h p) = D (rk4_step s' chi h p)
  /\ G (rk4_step s chi h p) = G (rk4_step s' chi h p).
Proof.
  apply (rk4_step_slice (fun a b => D a = D b /\ G a = G b)
                        (fun k k' => kD k = kD k' /\ kG k = kG k')).
  - intros a b c q [E1 E2]. unfold rg_slope_at, rg_beta_D, rg_beta_G.
    cbn [kD kG]. now rewrite E1, E2.
  - intros a b c k k' [E1 E2] [K1 K2]. unfold rk4_temp. cbn [D G].
    now rewrite E1, E2, K1, K2.
  - intros a b h0 k1 k1' k2 k2' k3 k3' k4 k4' [E1 E2] [A1 B1] [A2 B2] [A3 B3]
           [A4 B4].
    unfold rk4_combine. cbn [D G].
    now rewrite E1, E2, A1, B1, A2, B2, A3, B3, A4, B4.
Qed.

Lemma rk4_step_DGLambda (s s' : rg_state) (chi h : float) (p : gtt_params) :
  D s = D s' /\ G s = G s' /\ Lambda s = Lambda s' ->
  D (rk4_step s chi h p) = D (rk4_step s' chi h p)
  /\ G (rk4_step s chi h p) = G (rk4_step s' chi h p)
  /\ Lambda (rk4_step s chi h p) = Lambda (rk4_step s' chi h p).
Proof.
  apply (rk4_step_slice
           (fun a b => D a = D b /\ G a = G b /\ Lambda a = Lambda b)
           (fun k k' => kD k = kD k' /\ kG k = kG k' /\ kLambda k = kLambda k')).
  - intros a b c q (E1 & E2 & E3).
    unfold rg_slope_at, rg_beta_D, rg_beta_G, rg_beta_Lambda.
    cbn [kD kG kLambda]. now rewrite E1, E2, E3.
  - intros a b c k k' (E1 & E2 & E3) (K1 & K2 & K3). unfold rk4_temp.
    cbn [D G Lambda]. now rewrite E1, E2, E3, K1, K2, K3.
  - intros a b h0 k1 k1' k2 k2' k3 k3' k4 k4' (E1 & E2 & E3) (A1 & B1 & C1)
           (A2 & B2 & C2) (A3 & B3 & C3) (A4 & B4 & C4).
    unfold rk4_combine. cbn [D G Lambda].
    now rewrite E1, E2, E3, A1, B1, C1, A2, B2, C2, A3, B3, C3, A4, B4, C4.
Qed.

Lemma rk4_step_D_gauge (i : Z) (s s' : rg_state) (chi h : float) (p : gtt_params) :
  (0 <= i <= 2)%Z ->
  D s = D s' /\ get3 (g_gauge s) i = get3 (g_gauge s') i ->
  D (rk4_step s chi h p) = D (rk4_step s' chi h p)
  /\ get3 (g_gauge (rk4_step s chi h p)) i = get3 (g_gauge (rk4_step s' chi h p)) i.
Proof.
  intros Hi.
  apply (rk4_step_slice
           (fun a b => D a = D b /\ get3 (g_gauge a) i = get3 (g_gauge b) i)
           (fun k k' => kD k = kD k'
                        /\ get3 (kg_gauge k) i = get3 (kg_gauge k') i)).
  - intros a b c q [E1 E2]. unfold rg_slope_at, rg_beta_D, rg_beta_gauge.
    cbn [kD kg_gauge]. rewrite !get3_tabulate3 by exact Hi. cbv zeta.
    now rewrite E1, E2.
  - intros a b c k k' [E1 E2] [K1 K2]. unfold rk4_temp. cbn [D g_gauge].
    rewrite !get3_tabulate3 by exact Hi. now rewrite E1, E2, K1, K2.
  - intros a b h0 k1 k1' k2 k2' k3 k3' k4 k4' [E1 E2] [A1 B1] [A2 B2] [A3 B3]
           [A4 B4].
    unfold rk4_combine. cbn [D g_gauge]. rewrite !get3_tabulate3 by exact Hi.
    now rewrite E1, E2, A1, B1, A2, B2, A3, B3, A4, B4.
Qed.

(** X9.  The flow of [rg_integrate] is triangular.  The fractal dimension
    it returns depends on the input state through [D] alone; [G] through
    [D] and [G]; [Lambda] through [D], [G] and [Lambda]; and each gauge
    coupling [g_gauge[i]] through [D] and that same [g_gauge[i]]: the three
    gauge couplings do not mix, and nothing depends on [y_yukawa]. *)
Theorem rg_integrate_dependencies :
  forall (s s' : rg_state) (chi_start chi_end : float) (p : gtt_params),
    let o := snd (rg_integrate s chi_start chi_end p) in
    let o' := snd (rg_integrate s' chi_start chi_end p) in
    (D s = D s' -> D o = D o')
    /\ (D s = D s' -> G s = G s' -> G o = G o')
    /\ (D s = D s' -> G s = G s' -> Lambda s = Lambda s' -> Lambda o = Lambda o')
    /\ (forall i, (0 <= i <= 2)%Z ->
                  D s = D s' -> get3 (g_gauge s) i = get3 (g_gauge s') i ->
                  get3 (g_gauge o) i = get3 (g_gauge o') i).
Proof.
  intros s s' chi_start chi_end p o o'.
  unfold o, o', rg_integrate, for_loop. cbn [snd].
  split; [|split; [|split]].
  - intros ED.
    apply (for_range_related (fun a b => D a = D b)); [|exact ED].
    intros i a b E. now apply rk4_step_D.
  - intros ED EG.
    apply (for_range_related (fun a b => D a = D b /\ G a = G b)); [|now split].
    intros i a b E. now apply rk4_step_DG.
  - intros ED EG EL.
    apply (for_range_related
             (fun a b => D a = D b /\ G a = G b /\ Lambda a = Lambda b));
      [|now repeat split].
    intros i a b E. now apply rk4_step_DGLambda.
  - intros i Hi ED Eg.
    apply (for_range_related
             (fun a b => D a = D b /\ get3 (g_gauge a) i = get3 (g_gauge b) i));
      [|now split].
    intros k a b E. now apply rk4_step_D_gauge.
Qed.

(** *** rg_find_fixed_points *)

(** X10.  A [D_asymptotic] that is NaN or infinite makes the test
    [fabs (D_fixed - D_asymptotic) < 0.5] false: [rg_find_fixed_points]
    then reports no fixed point and leaves both output arrays as they
    were. *)
Theorem find_fixed_points_nonfinite_dimension :
  forall (chi_fixed : list float) (state_fixed : list rg_state) (p : gtt_params),
    is_finite (D_asymptotic p) = false ->
    rg_find_fixed_points chi_fixed state_fixed p = (0%Z, chi_fixed, state_fixed).
Proof.
  intros chi_fixed state_fixed p Hnf. unfold rg_find_fixed_points, fabs.
  rewrite nonfinite_abs_not_below; [reflexivity| |reflexivity|reflexivity].
  apply nonfinite_sub_r, is_finite_false_nonfinite, Hnf.
Qed.

End MoreForEveryLibm.

(** *** The further statements at concrete inputs *)

(** X3 at [a = 1e-200], whose square underflows to zero. *)
Lemma friedmann_succeeds_with_nan_at_underflow :
  let L := Reference.libm in
  (1e-200 <=? 0) = false
  /\ (1e-200 * 1e-200 =? 0) = true
  /\ @gtt_friedmann_equation L 1e-200 (default_cosmo, default_gtt L) = Some nan.
Proof.
  cbv zeta. split; [reflexivity|]. split; [reflexivity|].
  apply (@friedmann_succeeds_with_nan Reference.libm 1e-200 default_cosmo
           (default_gtt Reference.libm)).
  - reflexivity.
  - left. reflexivity.
Defined.

(** X6 in the collapsing universe, where every sample fails. *)
Lemma age_of_universe_zero_when_collapsing :
  let L := Reference.libm in
  (forall i, (1 <= i <= 1000)%Z ->
             @gtt_friedmann_equation L (of_int i * (1.0 / 1000.0))
                                     (default_cosmo, collapsing_gtt L) = None)
  /\ @gtt_age_of_universe L default_cosmo (collapsing_gtt L) = 0.
Proof.
  cbv zeta.
  assert (Hall : forall i, (1 <= i <= 1000)%Z ->
                 @gtt_friedmann_equation Reference.libm (of_int i * (1.0 / 1000.0))
                   (default_cosmo, collapsing_gtt Reference.libm) = None).
  { assert (Hb : forallb
                   (fun i =>
                      match @gtt_friedmann_equation Reference.libm
                              (of_int i * (1.0 / 1000.0))
                              (default_cosmo, collapsing_gtt Reference.libm) with
                      | None => true
                      | Some _ => false
                      end) (indices 1 1000) = true)
      by (vm_compute; reflexivity).
    rewrite forallb_forall in Hb. intros i Hi.
    specialize (Hb i). rewrite In_indices in Hb.
    destruct (gtt_friedmann_equation _ _); [|reflexivity].
    assert (Hf : false = true) by (apply Hb; lia). discriminate Hf. }
  split; [exact Hall|].
  exact (@age_of_universe_zero_when_all_samples_fail
           Reference.libm default_cosmo (collapsing_gtt Reference.libm) Hall).
Defined.

(** X7, both cases: in the collapsing universe the two evaluations fail
    and neither [H0] is above zero; with the default parameters they
    succeed and neither is below zero. *)
Lemma hubble_tension_cases_occur :
  let L := Reference.libm in
  let failing := @gtt_resolve_hubble_tension L default_cosmo (collapsing_gtt L) in
  let working := @gtt_resolve_hubble_tension L default_cosmo (default_gtt L) in
  (0 <? fst failing) = false /\ (0 <? snd failing) = false
  /\ (fst working <? 0) = false /\ (snd working <? 0) = false.
Proof.
  cbv zeta.
  pose proof (@hubble_tension_sign_tells_failure Reference.libm default_cosmo
                (collapsing_gtt Reference.libm)) as (F1 & _ & F3 & _).
  pose proof (@hubble_tension_sign_tells_failure Reference.libm default_cosmo
                (default_gtt Reference.libm)) as (_ & W2 & _ & W4).
  split; [apply F1; vm_compute; reflexivity|].
  split; [apply F3; vm_compute; reflexivity|].
  split; [apply W2; vm_compute; discriminate|].
  apply W4; vm_compute; discriminate.
Defined.

(** X10 at [D_asymptotic = NaN]. *)
Lemma find_fixed_points_nan_dimension :
  let p := mk_gtt_params 30.0 nan 0.004 0.1 1.0 0.0 43.0 0.028 in
  is_finite (D_asymptotic p) = false
  /\ rg_find_fixed_points [0.0] [rg_init_planck p] p
     = (0%Z, [0.0], [rg_init_planck p]).
Proof.
  cbv zeta. split; [reflexivity|].
  apply find_fixed_points_nonfinite_dimension. reflexivity.
Defined.

(* ------------------------------------------------------------------ *)
(** ** The geometry functions in binary64                              *)
(* ------------------------------------------------------------------ *)

(** *** Facts of binary64 arithmetic used below *)










(** Multiplying by one is exact: the product [m * 2^52] of the mantissas
    is shifted back by 52 places with nothing lost. *)
Lemma mul_one_r (x : float) : x * 1 = x.
Proof.
  apply Prim2SF_inj. rewrite mul_spec.
  change (Prim2SF 1) with (S754_finite false 4503599627370496 (-52)).
  pose proof (Prim2SF_valid x) as Hv.
  destruct (Prim2SF x) as [s|s| |s m e];
    try (destruct s; reflexivity); try reflexivity.
  unfold valid_binary, bounded, canonical_mantissa in Hv.
  apply andb_prop in Hv. destruct Hv as [Hc He].
  apply Z.eqb_eq in Hc.
  unfold SF64mul, SFmul, binary_round_aux.
  rewrite (Pos.mul_comm m).
  assert (Hd : Zdigits2 (Z.pos (4503599627370496 * m))
               = (Z.pos (digits2_pos m) + 52)%Z).
  { cbn [Pos.mul Zdigits2 digits2_pos]. rewrite !Pos2Z.inj_succ. lia. }
  unfold shr_fexp at 1. rewrite Hd.
  replace (Z.pos (digits2_pos m) + 52 + (e + -52))%Z
    with (Z.pos (digits2_pos m) + e)%Z by lia.
  rewrite Hc. replace (e - (e + -52))%Z with 52%Z by lia.
  cbn [Pos.mul shr shr_record_of_loc iter_pos shr_1 orb shr_m loc_of_shr_record
       round_nearest_even].
  unfold shr_fexp. cbn [Zdigits2].
  replace (e + -52 + 52)%Z with e by lia.
  rewrite Hc, Z.sub_diag. cbn [shr shr_record_of_loc shr_m].
  rewrite He. now destruct s.
Qed.



Section GeometryForEveryLibm.

Context {libm : Libm}.

(** *** gtt_fractal_dimension *)

(** At [chi = +0] the exponential is taken of a zero and is [1]. *)
Lemma exponential_at_zero (c : float) :
  is_nan c = false -> (c =? 0) = false -> exp ((- 0) / c) = 1.
Proof.
  intros Hnan Hzero.
  destruct (neg_zero_div_is_zero c Hnan Hzero) as [-> | ->];
    [apply exp_pos_zero | apply exp_neg_zero].
Qed.

Lemma fractal_dimension_at_zero (p : gtt_params) :
  is_nan (chi_P p) = false -> (chi_P p =? 0) = false ->
  gtt_fractal_dimension 0 p = D_asymptotic p - (D_asymptotic p - 2.0).
Proof.
  intros Hnan Hzero. unfold gtt_fractal_dimension. cbv zeta.
  rewrite (exponential_at_zero _ Hnan Hzero), mul_one_r. reflexivity.
Qed.



(** *** gtt_baryon_asymmetry *)


(** *** gtt_spectral_index *)

(** C10.  At the pivot [k = 0.05], for a [chi_P] that is neither zero
    nor NaN: [k / 0.05] is [1], its logarithm is [+0], the exponential is
    taken of a zero and is [1], so the fractal dimension there is
    [D0 = D_asymptotic - (D_asymptotic - 2)] and the index is
    [n_s0 - 0.014 * (D0 - D_asymptotic)].  For [D_asymptotic = 2.7916667]
    the two subtractions are exact, [D0] is the double [2], and the index
    is [n_s0 - 0.014 * (2 - 2.7916667)]: with [n_s0 = 0.965] it is
    [0.9760833338], above [n_s0] by about [0.0111]. *)
Theorem spectral_index_at_pivot_in_binary64 :
  forall (n_s0 : float) (p : gtt_params),
    is_nan (chi_P p) = false -> (chi_P p =? 0) = false ->
    let D0 := D_asymptotic p - (D_asymptotic p - 2.0) in
    log (0.05 / 0.05) = 0
    /\ gtt_fractal_dimension 0 p = D0
    /\ gtt_spectral_index 0.05 n_s0 p = n_s0 - 0.014 * (D0 - D_asymptotic p)
    /\ (D_asymptotic p = GTT_D_ASYMPTOTIC ->
        D0 = 2.0
        /\ gtt_spectral_index 0.05 n_s0 p
           = n_s0 - 0.014 * (2.0 - GTT_D_ASYMPTOTIC)
        /\ (n_s0 = 0.965 ->
            gtt_spectral_index 0.05 n_s0 p = 0.97608333380000001
            /\ (n_s0 + 0.011 <? gtt_spectral_index 0.05 n_s0 p) = true
            /\ (gtt_spectral_index 0.05 n_s0 p <? n_s0 + 0.0112) = true)).
Proof.
  intros n_s0 p Hnan Hzero D0.
  assert (Hlog : log (0.05 / 0.05) = 0)
    by (change (0.05 / 0.05) with 1; apply log_one).
  pose proof (fractal_dimension_at_zero p Hnan Hzero) as HD0. fold D0 in HD0.
  assert (Hidx : gtt_spectral_index 0.05 n_s0 p
                 = n_s0 - 0.014 * (D0 - D_asymptotic p)).
  { unfold gtt_spectral_index. cbv zeta. now rewrite Hlog, HD0. }
  split; [exact Hlog|]. split; [exact HD0|]. split; [exact Hidx|].
  intros HD.
  assert (H2 : D0 = 2.0) by (unfold D0; rewrite HD; reflexivity).
  split; [exact H2|].
  rewrite Hidx, H2, HD.
  split; [reflexivity|].
  intros ->. repeat split; reflexivity.
Qed.

End GeometryForEveryLibm.

(** *** The statements on the geometry functions at concrete inputs *)





(** C10 at the default parameter set and [n_s0 = 0.965]. *)
Lemma spectral_index_at_pivot_default :
  let L := Reference.libm in
  let p := default_gtt L in
  is_nan (chi_P p) = false /\ (chi_P p =? 0) = false
  /\ @gtt_spectral_index L 0.05 0.965 p = 0.965 - 0.014 * (2.0 - GTT_D_ASYMPTOTIC)
  /\ @gtt_spectral_index L 0.05 0.965 p = 0.97608333380000001.
Proof.
  cbv zeta.
  assert (H1 : is_nan (chi_P (default_gtt Reference.libm)) = false)
    by (vm_compute; reflexivity).
  assert (H2 : (chi_P (default_gtt Reference.libm) =? 0) = false)
    by (vm_compute; reflexivity).
  destruct (@spectral_index_at_pivot_in_binary64
              Reference.libm 0.965 (default_gtt Reference.libm) H1 H2)
    as (_ & _ & _ & Hdefault).
  destruct (Hdefault eq_refl) as (_ & Hidx & Hvalue).
  split; [exact H1|]. split; [exact H2|]. split; [exact Hidx|].
  exact (proj1 (Hvalue eq_refl)).
Defined.

(** C10, the claim as stated.  "For every parameter set" fails: with
    [chi_P = 0] the exponent [-0 / 0] is NaN and so is the index, and with
    an infinite [D_asymptotic] the fractal dimension at the pivot is
    [infinity - infinity], again NaN, while the value the claim names,
    [n_s0 - 0.014 * (2 - D_asymptotic)], is a number in both cases. *)
Lemma spectral_index_at_pivot_is_nan_without_scale :
  let L := Reference.libm in
  let with_D_chi_P := fun D cP => mk_gtt_params 30.0 D 0.004 0.1 1.0 0.0 cP 0.028 in
  let claimed := fun p => 0.965 - 0.014 * (2.0 - D_asymptotic p) in
  (@gtt_spectral_index L 0.05 0.965 (with_D_chi_P 2.7916667 0) = nan
   /\ claimed (with_D_chi_P 2.7916667 0) = 0.97608333380000001)
  /\ (@gtt_spectral_index L 0.05 0.965
        (with_D_chi_P infinity (chi_P (default_gtt L))) = nan
      /\ claimed (with_D_chi_P infinity (chi_P (default_gtt L))) = infinity).
Proof. cbv zeta. repeat split; vm_compute; reflexivity. Qed.

End IEEEProps.

(* ------------------------------------------------------------------ *)
(** ** Properties of the spectra over the real numbers                 *)
(* ------------------------------------------------------------------ *)

Module ExactProps.

Import Exact.
Local Open Scope R_scope.

(** *** pow *)



(** *** The primordial spectra at the pivot *)



(** *** gtt_cmb_temperature_spectrum *)

(** X26.  On a buffer with more than [l_max] entries,
    [gtt_cmb_temperature_spectrum] keeps the length, writes every entry
    [l] with [2 <= l <= l_max], and leaves the monopole and dipole
    entries [0] and [1] and every entry above [l_max] as they were; what
    it writes at [l] does not depend on the old content of the buffer. *)
Theorem cmb_temperature_spectrum_entries :
  forall (l_max : Z) (C_l_TT : list R) (Omega_m Omega_b h : R)
         (ps : primordial_spectra) (gtt : gtt_params) (d : R),
    (l_max < Z.of_nat (length C_l_TT))%Z ->
    let out := gtt_cmb_temperature_spectrum l_max C_l_TT Omega_m Omega_b h ps gtt in
    length out = length C_l_TT
    /\ forall j : nat,
         nth j out d
         = if ((2 <=? Z.of_nat j)%Z && (Z.of_nat j <=? l_max)%Z)%bool
           then cmb_entry (Z.of_nat j) Omega_m Omega_b h ps gtt
           else nth j C_l_TT d.
Proof.
  intros l_max C_l_TT Omega_m Omega_b h ps gtt d Hlen out.
  destruct (for_range_upd (fun l => cmb_entry l Omega_m Omega_b h ps gtt) d
              (Z.to_nat (l_max + 1 - 2)) 2%Z C_l_TT) as [HL HN]; [lia|].
  split; [exact HL|]. intros j. unfold out, gtt_cmb_temperature_spectrum, for_loop.
  rewrite HN.
  destruct (Z.leb_spec 2 (Z.of_nat j)) as [H1 | H1]; cbn [andb]; [|reflexivity].
  destruct (Z.leb_spec (Z.of_nat j) l_max) as [H2 | H2];
    destruct (Z.ltb_spec (Z.of_nat j) (2 + Z.of_nat (Z.to_nat (l_max + 1 - 2))))
      as [H3 | H3];
    destruct (Nat.ltb_spec j (length C_l_TT)) as [H4 | H4];
    cbn [andb]; try reflexivity; lia.
Qed.

Lemma cmb_temperature_spectrum_entries_example :
  (3 < Z.of_nat (length [7; 7; 7; 7; 7]))%Z
  /\ let out := gtt_cmb_temperature_spectrum 3 [7; 7; 7; 7; 7] 0.3153 0.0493 0.674
                  (gtt_primordial_init default_gtt) default_gtt in
     length out = 5%nat
     /\ forall j : nat,
          nth j out 0
          = if ((2 <=? Z.of_nat j)%Z && (Z.of_nat j <=? 3)%Z)%bool
            then cmb_entry (Z.of_nat j) 0.3153 0.0493 0.674
                           (gtt_primordial_init default_gtt) default_gtt
            else nth j [7; 7; 7; 7; 7] 0.
Proof.
  assert (H : (3 < Z.of_nat (length [7; 7; 7; 7; 7]))%Z) by (cbn; lia).
  split; [exact H|].
  exact (cmb_temperature_spectrum_entries
           3 [7; 7; 7; 7; 7] 0.3153 0.0493 0.674
           (gtt_primordial_init default_gtt) default_gtt 0 H).
Defined.

End ExactProps.
